(** * sqs-messenger: message validation and request construction

    A shallow embedding of [src/utils/message.utils.ts] (class
    [MessageUtils]) together with the type declarations of
    [src/components/app.component.tsx] it relies on.

    Conventions of the embedding:
    - a JavaScript string is a [string]; one character stands for one
      code unit (the code units below 256);
    - an array is a [list]; [errors.push(e)] appends at the end;
    - a value that may be [undefined] is an [option];
    - code that can throw lives in [Result];
    - [Math.random] is an oracle threaded through the [Gen] monad;
    - the object built by [toRequest] is a [gmap] keyed by attribute name;
    - the host's [JSON] object is an interface ([Class JSON]). *)

From Stdlib Require Import ZArith Ascii String DecimalString.
From stdpp Require Import base option list strings gmap.

Local Open Scope string_scope.
Local Open Scope list_scope.

(** ** Exceptions *)

Inductive Exception : Type :=
| Error (message : string)
| TypeError (message : string)
| SyntaxError (message : string).

Inductive Result (A : Type) : Type :=
| Ok (value : A)
| Throw (exception : Exception).

Arguments Ok {A} value.
Arguments Throw {A} exception.

#[global] Instance Result_ret : MRet Result := fun A x => Ok x.

#[global] Instance Result_bind : MBind Result := fun A B f r =>
  match r with
  | Ok x => f x
  | Throw e => Throw e
  end.

(** [try { block } catch { handler }] *)
Definition try_catch {A} (block : Result A) (handler : Exception -> A) : A :=
  match block with
  | Ok x => x
  | Throw e => handler e
  end.

(** ** Strings of the host language *)

Module JSString.

(** [text[i]]: the character at index [i], [undefined] out of range. *)
Definition at_ (text : string) (i : Z) : option ascii :=
  if (i <? 0)%Z then None else String.get (Z.to_nat i) text.

Definition length (text : string) : Z := Z.of_nat (String.length text).

(** The characters [String.prototype.trim] removes (WhiteSpace and
    LineTerminator): TAB, LF, VT, FF, CR, SPACE and NO-BREAK SPACE. *)
Definition isWhiteSpace (c : ascii) : bool :=
  match nat_of_ascii c with
  | 9 | 10 | 11 | 12 | 13 | 32 | 160 => true
  | _ => false
  end.

Fixpoint trimStart (text : string) : string :=
  match text with
  | EmptyString => EmptyString
  | String c rest => if isWhiteSpace c then trimStart rest else text
  end.

Fixpoint trimEnd (text : string) : string :=
  match text with
  | EmptyString => EmptyString
  | String c rest =>
      match trimEnd rest with
      | EmptyString => if isWhiteSpace c then EmptyString else String c EmptyString
      | kept => String c kept
      end
  end.

Definition trim (text : string) : string := trimEnd (trimStart text).

(** [ToBoolean] on a string: only the empty string is falsy. *)
Definition truthy (text : string) : bool :=
  match text with
  | EmptyString => false
  | String _ _ => true
  end.

(** [Number.prototype.toString] on a natural number. *)
Definition ofNumber (n : N) : string :=
  NilEmpty.string_of_uint (N.to_uint n).

(** The same on an array index, as in [`${index}`]. *)
Definition ofIndex (index : nat) : string :=
  NilEmpty.string_of_uint (Nat.to_uint index).

End JSString.

(** ** Numbers of the host language

    The program observes a number only through [isNaN], so a number is
    kept as that one bit. Whether [Number(text)] and [parseFloat(text)]
    are NaN is decided by the grammar of the text alone
    (StringNumericLiteral and StrDecimalLiteral of ECMA-262). *)

Module JSNumber.

Inductive Number : Type := NaN | NotNaN.

Definition isNaN (n : Number) : bool :=
  match n with NaN => true | NotNaN => false end.

Definition isDigit (c : ascii) : bool :=
  let n := nat_of_ascii c in (48 <=? n)%nat && (n <=? 57)%nat.

Definition isHexDigit (c : ascii) : bool :=
  let n := nat_of_ascii c in
  isDigit c || ((65 <=? n)%nat && (n <=? 70)%nat) || ((97 <=? n)%nat && (n <=? 102)%nat).

Definition isOctalDigit (c : ascii) : bool :=
  let n := nat_of_ascii c in (48 <=? n)%nat && (n <=? 55)%nat.

Definition isBinaryDigit (c : ascii) : bool :=
  let n := nat_of_ascii c in (48 <=? n)%nat && (n <=? 49)%nat.

Fixpoint skip (p : ascii -> bool) (text : string) : string :=
  match text with
  | EmptyString => EmptyString
  | String c rest => if p c then skip p rest else text
  end.

Definition starts (p : ascii -> bool) (text : string) : bool :=
  match text with
  | EmptyString => false
  | String c _ => p c
  end.

(** One or more characters of class [p], and nothing else. *)
Definition allOf (p : ascii -> bool) (text : string) : bool :=
  starts p text && String.eqb (skip p text) "".

Definition dropSign (text : string) : string :=
  match text with
  | String "+" rest | String "-" rest => rest
  | _ => text
  end.

(** [text] is empty or is an ExponentPart. *)
Definition isExponentOpt (text : string) : bool :=
  match text with
  | EmptyString => true
  | String "e" rest | String "E" rest => allOf isDigit (dropSign rest)
  | _ => false
  end.

Definition isStrUnsignedDecimalLiteral (text : string) : bool :=
  if String.eqb text "Infinity" then true
  else
    match text with
    | String "." rest => starts isDigit rest && isExponentOpt (skip isDigit rest)
    | _ =>
        starts isDigit text &&
        match skip isDigit text with
        | String "." rest => isExponentOpt (skip isDigit rest)
        | rest => isExponentOpt rest
        end
    end.

Definition isStrDecimalLiteral (text : string) : bool :=
  isStrUnsignedDecimalLiteral (dropSign text).

Definition isNonDecimalIntegerLiteral (text : string) : bool :=
  match text with
  | String "0" (String "x" rest) | String "0" (String "X" rest) => allOf isHexDigit rest
  | String "0" (String "o" rest) | String "0" (String "O" rest) => allOf isOctalDigit rest
  | String "0" (String "b" rest) | String "0" (String "B" rest) => allOf isBinaryDigit rest
  | _ => false
  end.

(** [Number(text)]: white space around the literal is ignored and the
    empty text is 0. *)
Definition StringToNumber (text : string) : Number :=
  let literal := JSString.trim text in
  if String.eqb literal "" then NotNaN
  else if isStrDecimalLiteral literal || isNonDecimalIntegerLiteral literal then NotNaN
  else NaN.

(** [parseFloat(text)]: the longest prefix, after leading white space,
    that is a StrDecimalLiteral; NaN when there is none. *)
Definition parseFloat (text : string) : Number :=
  let unsigned := dropSign (JSString.trimStart text) in
  if String.prefix "Infinity" unsigned then NotNaN
  else if starts isDigit unsigned then NotNaN
  else
    match unsigned with
    | String "." rest => if starts isDigit rest then NotNaN else NaN
    | _ => NaN
    end.

End JSNumber.

(** ** The host's JSON object *)

Class JSON : Type := {
  JSONValue : Type;
  (** [JSON.parse(text)]; a text that is not JSON throws a SyntaxError. *)
  JSON_parse : string -> Result JSONValue;
  (** [JSON.stringify(value, null, space)] *)
  JSON_stringify : JSONValue -> nat -> string;
}.

(** What ECMA-262 guarantees of [JSON] and [formatBody] relies on: a text
    that opens with a brace parses to an object, an object is written
    between braces, and what [JSON.stringify] writes is read back by
    [JSON.parse] as a value that is written the same way. *)
Class JSONRoundTrip (J : JSON) : Prop := {
  stringify_object_braces : forall text obj space,
    JSString.at_ text 0 = Some "{"%char ->
    JSON_parse text = Ok obj ->
    JSString.at_ (JSON_stringify obj space) 0 = Some "{"%char /\
    JSString.at_ (JSON_stringify obj space)
      (JSString.length (JSON_stringify obj space) - 1) = Some "}"%char;
  stringify_parse_stable : forall text obj space,
    JSON_parse text = Ok obj ->
    exists obj',
      JSON_parse (JSON_stringify obj space) = Ok obj' /\
      JSON_stringify obj' space = JSON_stringify obj space;
}.

(** ** [Math.random] and the monad of [toMessage] *)

(** The source of randomness: the values the coming calls of
    [Math.round(Math.random() * 100000)] will take. *)
Definition Random : Type := nat -> N.

(** A computation that may draw random numbers and may throw. *)
Definition Gen (A : Type) : Type := Random -> Result (A * Random).

#[global] Instance Gen_ret : MRet Gen := fun A x rnd => Ok (x, rnd).

#[global] Instance Gen_bind : MBind Gen := fun A B f m rnd =>
  match m rnd with
  | Ok (x, rnd') => f x rnd'
  | Throw e => Throw e
  end.

Definition lift {A} (r : Result A) : Gen A := fun rnd =>
  match r with
  | Ok x => Ok (x, rnd)
  | Throw e => Throw e
  end.

(** [array.map(f)] for an [f] that draws random numbers, left to right. *)
Fixpoint mapGen {A B} (f : A -> Gen B) (array : list A) : Gen (list B) :=
  match array with
  | [] => mret []
  | x :: rest => y ← f x; ys ← mapGen f rest; mret (y :: ys)
  end.

(** ** The data model ([app.component.tsx]) *)

(** A [Buffer], [Uint8Array] or [Blob]: its bytes, and the text its
    [toString()] gives, which is what the host's coercions of an object
    to a string or to a number go through. *)
Record BinaryObject : Type := {
  payload : list Byte.byte;
  objToString : string;
}.

(** [type SqsMessageAttributeValue = Buffer | Uint8Array | Blob | string] *)
Inductive SqsMessageAttributeValue : Type :=
| VString (text : string)
| VBinary (object : BinaryObject).

(** [type SqsMessageAttribute]. The declared type of [type] is the union
    ['String' | 'Number' | 'Binary'], which is erased when the program
    runs: the field holds whatever string the record was built with. *)
Record SqsMessageAttribute : Type := {
  attribute_id : string;
  name : string;
  type : string;
  value : SqsMessageAttributeValue;
}.

(** [type SqsMessage] *)
Record SqsMessage : Type := {
  message_id : string;
  body : string;
  attributes : list SqsMessageAttribute;
  errors : option (list string);
}.

(** An [unknown] item of the seed data, seen as [item as SqsMessage]: the
    two fields the program reads may be [undefined]. The items covered
    are those whose body is a text or [undefined] and whose attributes
    are an array of attribute records or [undefined]; an item of another
    shape (a body that is not a string, attributes that are not an array,
    an attribute that is [null]) is outside the model. *)
Record Item : Type := {
  item_body : option string;
  item_attributes : option (list SqsMessageAttribute);
}.

(** A message is in particular such an item. *)
Definition item_of (message : SqsMessage) : Item :=
  {| item_body := Some (body message);
     item_attributes := Some (attributes message) |}.

Coercion item_of : SqsMessage >-> Item.

(** [SQS.MessageAttributeValue] (aws-sdk) *)
Record MessageAttributeValue : Type := {
  DataType : string;
  StringValue : option SqsMessageAttributeValue;
  BinaryValue : option SqsMessageAttributeValue;
}.

(** [SQS.SendMessageRequest] (aws-sdk) *)
Record SendMessageRequest : Type := {
  QueueUrl : string;
  MessageBody : string;
  MessageAttributes : gmap string MessageAttributeValue;
}.

(** ** Coercions of the host language on attribute values *)

Definition ToBoolean (v : SqsMessageAttributeValue) : bool :=
  match v with
  | VString text => JSString.truthy text
  | VBinary _ => true
  end.

Definition ToString (v : SqsMessageAttributeValue) : string :=
  match v with
  | VString text => text
  | VBinary object => objToString object
  end.

(** The global [isNaN(v)]: [v] is first converted to a number. *)
Definition isNaN (v : SqsMessageAttributeValue) : bool :=
  JSNumber.isNaN (JSNumber.StringToNumber (ToString v)).

(** The global [parseFloat(v)]: [v] is first converted to a string. *)
Definition parseFloat (v : SqsMessageAttributeValue) : JSNumber.Number :=
  JSNumber.parseFloat (ToString v).

(** [!x] for a string field that may be [undefined]. *)
Definition falsy (field : option string) : bool :=
  match field with
  | Some text => negb (JSString.truthy text)
  | None => true
  end.

(** Reading a property of [x]: a TypeError when [x] is [undefined]. *)
Definition defined {A} (x : option A) : Result A :=
  match x with
  | Some a => Ok a
  | None => Throw (TypeError "Cannot read properties of undefined")
  end.

(** ** Arrays *)

Definition push {A} (array : list A) (x : A) : list A := array ++ [x].

(** [array.indexOf(x)]: the first index of [x], or -1. *)
Fixpoint indexOf `{EqDecision A} (array : list A) (x : A) : Z :=
  match array with
  | [] => -1
  | y :: rest =>
      if decide (y = x) then 0
      else let i := indexOf rest x in if (i <? 0)%Z then -1 else (i + 1)%Z
  end%Z.

(** [array.reduce(f, init)] *)
Definition reduce {A B} (f : B -> A -> B) (init : B) (array : list A) : B :=
  fold_left f array init.

(** [array.forEach((x, index) => ...)] for a callback that updates a
    state; [index] is the index of the first element of [array]. *)
Fixpoint forEach {A St} (f : St -> A -> nat -> St) (array : list A) (index : nat) (s : St) : St :=
  match array with
  | [] => s
  | x :: rest => forEach f rest (S index) (f s x index)
  end.

(** [array.some(p)] *)
Definition some {A} (p : A -> bool) (array : list A) : bool := existsb p array.

(** ** [MessageUtils] ([message.utils.ts]) *)

Module MessageUtils.

(** [Math.round(Math.random() * 100000).toString()] *)
Definition generateRandomId : Gen string := fun rnd =>
  Ok (JSString.ofNumber (N.min (rnd 0%nat) 100000), fun i => rnd (S i)).

Definition isJson (text : string) : bool :=
  bool_decide (JSString.at_ text 0 = Some "{"%char) &&
  bool_decide (JSString.at_ text (JSString.length text - 1) = Some "}"%char).

Definition isNumeric (str : SqsMessageAttributeValue) : bool :=
  negb (isNaN str) && negb (JSNumber.isNaN (parseFloat str)).

Definition formatBody {J : JSON} (body : string) : string :=
  let text := JSString.trim body in
  try_catch
    (if isJson text then
       obj ← JSON_parse text;
       mret (JSON_stringify obj 4)
     else mret text)
    (fun _ => text).

(** The keys of the object are listed in the order it is written in. *)
Definition getAttributeTypes : list (string * string) :=
  [("String", "String"); ("Binary", "Binary"); ("Number", "Number")].

Definition Object_keys {A} (object : list (string * A)) : list string :=
  object.*1.

Definition isPropertyUnique {TObject V} `{EqDecision V}
    (key : TObject -> V) (objects : list TObject) : bool :=
  let propertyValues :=
    reduce (fun values obj =>
              let value := key obj in
              if (0 <=? indexOf values value)%Z then values
              else (values ++ [value])%list)
           [] objects in
  bool_decide (length propertyValues = length objects).

(** The callback of [message.attributes.forEach]. *)
Definition validateAttribute (attributeTypes : list string)
    (errors : list string) (attribute : SqsMessageAttribute) (index : nat)
    : list string :=
  let errors :=
    if negb (JSString.truthy (name attribute)) then
      push errors ("Attribute Name at position " +:+ JSString.ofIndex index +:+ " is undefined.")
    else errors in
  let errors :=
    if negb (ToBoolean (value attribute)) then
      push errors ("Attribute Value at position " +:+ JSString.ofIndex index +:+ " is undefined.")
    else if String.eqb (type attribute) "Number" && negb (isNumeric (value attribute)) then
      push errors ("Attribute value at position " +:+ JSString.ofIndex index +:+ " is not a number.")
    else errors in
  let errors :=
    if negb (some (fun type' => String.eqb (type attribute) type') attributeTypes) then
      push errors ("Attribute Data Type at position " +:+ JSString.ofIndex index +:+ " is invalid.")
    else errors in
  errors.

Definition validateMessage (message : Item) : Result (option (list string)) :=
  let errors := [] in
  let errors :=
    if falsy (item_body message) then push errors "Body is not defined."
    else errors in
  let attributeTypes := Object_keys getAttributeTypes in
  (* [objects.reduce] and [message.attributes.forEach] read a property
     of [message.attributes] *)
  attributes ← defined (item_attributes message);
  let errors :=
    if negb (isPropertyUnique name attributes) then
      push errors "Attribute Name is not unique."
    else errors in
  let errors := forEach (validateAttribute attributeTypes) attributes 0 errors in
  mret (if bool_decide (length errors ≠ 0) then Some errors else None).

Definition mapAttribute (attribute : SqsMessageAttribute) : Result MessageAttributeValue :=
  if String.eqb (type attribute) "String" || String.eqb (type attribute) "Number" then
    Ok {| DataType := type attribute;
          StringValue := Some (value attribute);
          BinaryValue := None |}
  else if String.eqb (type attribute) "Binary" then
    Ok {| DataType := type attribute;
          StringValue := None;
          BinaryValue := Some (value attribute) |}
  else
    Throw (Error ("Could not map unknown attribute type: '" +:+ type attribute +:+ "'.")).

Definition toRequest (queryUrl : string) (message : SqsMessage) : Result SendMessageRequest :=
  MessageAttributes ←
    reduce (fun (map : Result (gmap string MessageAttributeValue)) attribute =>
              map ← map;
              mapped ← mapAttribute attribute;
              mret (<[name attribute := mapped]> map))
           (Ok ∅) (attributes message);
  mret {| QueueUrl := queryUrl;
          MessageBody := body message;
          MessageAttributes := MessageAttributes |}.

Definition toMessage {J : JSON} (item : Item) : Gen SqsMessage :=
  let message := item in
  id ← generateRandomId;
  body ← lift (text ← defined (item_body message); mret (formatBody text));
  attributes ←
    match item_attributes message with
    | Some attributes =>
        mapGen (fun attribute =>
                  id ← generateRandomId;
                  mret {| attribute_id := id;
                          name := name attribute;
                          type := type attribute;
                          value := value attribute |})
               attributes
    | None => mret []
    end;
  errors ← lift (validateMessage message);
  mret {| message_id := id; body := body; attributes := attributes; errors := errors |}.

End MessageUtils.

(** ** A small JSON engine

    An implementation of the [JSON] interface that knows two documents,
    the empty object and the object with the single member ["a": 1], and
    reads them whatever the insignificant white space. It serves to run
    [formatBody] on concrete bodies. *)

Module TinyJSON.

Inductive document : Type :=
| EmptyObject    (* {} *)
| ObjectA1.      (* {"a":1} *)

Definition quote : ascii := "034"%char.
Definition newline : ascii := "010"%char.

(** The four white space characters of the JSON grammar. *)
Definition isJSONWhiteSpace (c : ascii) : bool :=
  match nat_of_ascii c with
  | 9 | 10 | 13 | 32 => true
  | _ => false
  end.

(** Drops the white space between tokens; [inString] tells whether the
    text read so far ends inside a string literal. *)
Fixpoint compact (inString : bool) (text : string) : string :=
  match text with
  | EmptyString => EmptyString
  | String c rest =>
      if Ascii.eqb c quote then String c (compact (negb inString) rest)
      else if negb inString && isJSONWhiteSpace c then compact inString rest
      else String c (compact inString rest)
  end.

Definition emptyObjectText : string := "{}".

Definition objectA1Text : string :=
  "{" +:+ String quote ("a" +:+ String quote ":1}").

Definition parse (text : string) : Result document :=
  let tokens := compact false text in
  if String.eqb tokens emptyObjectText then Ok EmptyObject
  else if String.eqb tokens objectA1Text then Ok ObjectA1
  else Throw (SyntaxError "Unexpected token in JSON").

Fixpoint spaces (n : nat) : string :=
  match n with
  | O => EmptyString
  | S n' => String " " (spaces n')
  end.

(** [JSON.stringify(value, null, space)]: the indentation is at most
    ten spaces, and no line is broken when it is empty. *)
Definition stringify (value : document) (space : nat) : string :=
  let gap := spaces (Nat.min space 10) in
  match value with
  | EmptyObject => emptyObjectText
  | ObjectA1 =>
      match gap with
      | EmptyString => objectA1Text
      | _ =>
          "{" +:+ String newline
            (gap +:+ String quote ("a" +:+ String quote (": 1" +:+ String newline "}")))
      end
  end.

#[global] Instance engine : JSON := {|
  JSONValue := document;
  JSON_parse := parse;
  JSON_stringify := stringify;
|}.

End TinyJSON.

(** ** The components that call [MessageUtils]

    A component is a function of its props and state; each of its
    callbacks is modelled by what it hands to its state setter or to the
    callback of its parent. *)

(** [text.substring(start, end)] and [text.substring(start)] on indices
    that are natural numbers: both ends are clamped to the length and
    swapped when out of order. *)
Definition js_substring (text : string) (start end_ : nat) : string :=
  let len := String.length text in
  let finalStart := Nat.min start len in
  let finalEnd := Nat.min end_ len in
  let from := Nat.min finalStart finalEnd in
  let to := Nat.max finalStart finalEnd in
  String.substring from (to - from) text.

Definition js_substring_from (text : string) (start : nat) : string :=
  js_substring text start (String.length text).

(** How a promise of the collaborators settles; the reason of a rejection
    is a text, as in [reject(error.message)]. *)
Inductive Settled (A : Type) : Type :=
| Resolved (value : A)
| Rejected (reason : string).

Arguments Resolved {A} value.
Arguments Rejected {A} reason.

(** [messages.component.tsx] *)
Module MessagesComponent.

(** [setErrors] of [sendMessage]: the list it gives to [setMessages]. *)
Definition setErrors (messages : list SqsMessage) (messageId : string)
    (newErrors : list string) : list SqsMessage :=
  map (fun message =>
         if String.eqb (message_id message) messageId then
           {| message_id := message_id message;
              body := body message;
              attributes := attributes message;
              errors := Some newErrors |}
         else message)
      messages.

(** [sendMessage]: the list given to [setMessages], when it is called,
    and the boolean the promise resolves to. The promise is rejected when
    [validateMessage] throws. *)
Definition sendMessage (messages : list SqsMessage)
    (onSendMessage : SqsMessage -> Settled bool)
    (messageId : string) (sentMessage : SqsMessage)
    : Result (option (list SqsMessage) * bool) :=
  errors ← MessageUtils.validateMessage sentMessage;
  match errors with
  | Some errors => mret (Some (setErrors messages messageId errors), false)
  | None =>
      match onSendMessage sentMessage with
      | Resolved success => mret (None, success)
      | Rejected error => mret (Some (setErrors messages messageId [error]), false)
      end
  end.

Definition addMessage (messages : list SqsMessage) : Gen (list SqsMessage) :=
  id ← MessageUtils.generateRandomId;
  mret (messages ++ [ {| message_id := id; body := ""; attributes := []; errors := None |} ]).

Definition updateMessage (messages : list SqsMessage) (messageId : string)
    (newMessage : SqsMessage) : list SqsMessage :=
  map (fun message =>
         if String.eqb (message_id message) messageId then newMessage else message)
      messages.

Definition removeMessage (messages : list SqsMessage) (messageId : string)
    : list SqsMessage :=
  List.filter (fun message => negb (String.eqb (message_id message) messageId)) messages.

End MessagesComponent.

(** [message.component.tsx] *)
Module MessageComponent.

(** [Partial<SqsMessage>]: the fields that are given. *)
Record Partial : Type := {
  partial_id : option string;
  partial_body : option string;
  partial_attributes : option (list SqsMessageAttribute);
  partial_errors : option (list string);
}.

Definition TAB_SPACES : string := "    ".

(** [updateMessage]: the two arguments of [props.onChange]. The object
    literal lists [id], [body] and [attributes] of the props, not their
    [errors], before it spreads the partial message. *)
Definition updateMessage (props : SqsMessage) (message : Partial)
    : string * SqsMessage :=
  (message_id props,
   {| message_id := default (message_id props) (partial_id message);
      body := default (body props) (partial_body message);
      attributes := default (attributes props) (partial_attributes message);
      errors := partial_errors message |}).

(** [onBodyKeyDown]: on the Tab key, the change of the message and the
    position the cursor is moved to. [selectionStart] may be [null]. *)
Definition onBodyKeyDown (props : SqsMessage) (key : string) (elementValue : string)
    (elementSelectionStart : option nat) : option ((string * SqsMessage) * nat) :=
  if String.eqb key "Tab" then
    let selectionStart := default 0 elementSelectionStart in
    let body :=
      js_substring elementValue 0 selectionStart +:+ TAB_SPACES +:+
      js_substring_from elementValue selectionStart in
    let cursorPos := selectionStart + String.length TAB_SPACES in
    Some (updateMessage props
            {| partial_id := None; partial_body := Some body;
               partial_attributes := None; partial_errors := None |},
          cursorPos)
  else None.


Definition updateAttribute (props : SqsMessage) (attributeId : string)
    (newAttribute : SqsMessageAttribute) : string * SqsMessage :=
  updateMessage props
    {| partial_id := None; partial_body := None;
       partial_attributes :=
         Some (map (fun attribute =>
                      if String.eqb (attribute_id attribute) attributeId
                      then newAttribute else attribute)
                   (attributes props));
       partial_errors := None |}.

Definition addAttribute (props : SqsMessage) : Gen (string * SqsMessage) :=
  id ← MessageUtils.generateRandomId;
  mret (updateMessage props
          {| partial_id := None; partial_body := None;
             partial_attributes :=
               Some (attributes props ++
                     [ {| attribute_id := id; name := ""; type := "String";
                          value := VString "" |} ]);
             partial_errors := None |}).

Definition removeAttribute (props : SqsMessage) (attributeId : string)
    : string * SqsMessage :=
  updateMessage props
    {| partial_id := None; partial_body := None;
       partial_attributes :=
         Some (List.filter
                 (fun attribute => negb (String.eqb (attribute_id attribute) attributeId))
                 (attributes props));
       partial_errors := None |}.

(** [sendMessage]: the two arguments of [props.onSend], when it is
    called. [sending] is the state of the component. *)
Definition sendMessage (props : SqsMessage) (sending : bool)
    : option (string * SqsMessage) :=
  if negb (bool_decide (is_Some (errors props))) && negb sending then
    Some (message_id props,
          {| message_id := message_id props;
             body := body props;
             attributes := attributes props;
             errors := None |})
  else None.

End MessageComponent.

(** [settings.component.tsx] *)
Module SettingsComponent.

(** [type SqsConfig] ([app.component.tsx]) *)
Record SqsConfig : Type := {
  region : string;
  accessKeyId : string;
  secretAccessKey : string;
  sessionToken : string;
  queueUrl : string;
}.

(** [keyof SqsConfig], which are also the names of the five text fields. *)
Inductive SqsConfigKey : Type :=
| Region | AccessKeyId | SecretAccessKey | SessionToken | QueueUrlKey.

#[global] Instance SqsConfigKey_eq_dec : EqDecision SqsConfigKey.
Proof. solve_decision. Defined.

(** [Object.keys(props.config)] *)
Definition Object_keys (config : SqsConfig) : list SqsConfigKey :=
  [Region; AccessKeyId; SecretAccessKey; SessionToken; QueueUrlKey].

(** [props.config[key]] *)
Definition get (config : SqsConfig) (key : SqsConfigKey) : string :=
  match key with
  | Region => region config
  | AccessKeyId => accessKeyId config
  | SecretAccessKey => secretAccessKey config
  | SessionToken => sessionToken config
  | QueueUrlKey => queueUrl config
  end.

(** [array.every(p)] *)
Definition every {A} (p : A -> bool) (array : list A) : bool := forallb p array.

Definition valid (config : SqsConfig) : bool :=
  every (fun key => let value := get config key in JSString.truthy value)
        (Object_keys config).

(** [onFieldChange]: the configuration given to [props.onChange] for a
    change of the field named [targetName]. *)
Definition onFieldChange (config : SqsConfig) (targetName : SqsConfigKey)
    (targetValue : string) : SqsConfig :=
  match targetName with
  | Region =>
      {| region := targetValue; accessKeyId := accessKeyId config;
         secretAccessKey := secretAccessKey config;
         sessionToken := sessionToken config; queueUrl := queueUrl config |}
  | AccessKeyId =>
      {| region := region config; accessKeyId := targetValue;
         secretAccessKey := secretAccessKey config;
         sessionToken := sessionToken config; queueUrl := queueUrl config |}
  | SecretAccessKey =>
      {| region := region config; accessKeyId := accessKeyId config;
         secretAccessKey := targetValue;
         sessionToken := sessionToken config; queueUrl := queueUrl config |}
  | SessionToken =>
      {| region := region config; accessKeyId := accessKeyId config;
         secretAccessKey := secretAccessKey config;
         sessionToken := targetValue; queueUrl := queueUrl config |}
  | QueueUrlKey =>
      {| region := region config; accessKeyId := accessKeyId config;
         secretAccessKey := secretAccessKey config;
         sessionToken := sessionToken config; queueUrl := targetValue |}
  end.

End SettingsComponent.

(** [app.component.tsx] *)
Module AppComponent.

(** [type SqsConnectionStatus] *)
Inductive SqsConnectionStatus : Type := unknown | ok | failed.

(** [sendMessage]: how the promise settles. [sqs] stands for
    [sqs.sendMessage]: the [error.message] its callback receives, if any.
    An exception of [toRequest] rejects the promise with the exception. *)
Definition sendMessage (queueUrl : string) (sqs : SendMessageRequest -> option string)
    (message : SqsMessage) : Result (Settled bool) :=
  request ← MessageUtils.toRequest queueUrl message;
  match sqs request with
  | Some errorMessage => mret (Rejected errorMessage)
  | None => mret (Resolved true)
  end.

(** [testConnection] *)
Definition testConnection (queueUrl : string) (sqs : SendMessageRequest -> option string)
    : Gen (Settled SqsConnectionStatus) :=
  id ← MessageUtils.generateRandomId;
  settled ← lift (sendMessage queueUrl sqs
                    {| message_id := id; body := "connection test";
                       attributes := []; errors := None |});
  match settled with
  | Resolved success => if negb success then mret (Resolved failed) else mret (Resolved ok)
  | Rejected reason => mret (Rejected reason)
  end.

(** [items.map<SqsMessage>(MessageUtils.toMessage)] of the effect that
    loads the seed data. *)
Definition initialMessages {J : JSON} (items : list Item) : Gen (list SqsMessage) :=
  mapGen MessageUtils.toMessage items.

End AppComponent.

(** ** The vocabulary of the specification *)

(** The last character of a text, by recursion on the text. *)
Fixpoint last_char (text : string) : option ascii :=
  match text with
  | EmptyString => None
  | String c EmptyString => Some c
  | String _ rest => last_char rest
  end.

Module Spec.

(** The records have pairwise distinct values for the field [key]. *)
Definition pairwise_distinct {TObject V} (key : TObject -> V)
    (objects : list TObject) : Prop :=
  forall i j oi oj,
    i <> j -> objects !! i = Some oi -> objects !! j = Some oj ->
    key oi <> key oj.

(** Two records at different positions share the value of [key]. *)
Definition shared {TObject V} (key : TObject -> V)
    (objects : list TObject) : Prop :=
  exists i j oi oj,
    i <> j /\ objects !! i = Some oi /\ objects !! j = Some oj /\
    key oi = key oj.

(** The validator's answer for a list of collected errors: the list
    when there are errors, absence when there is none. *)
Definition result (errors : list string) : option (list string) :=
  match errors with
  | [] => None
  | _ :: _ => Some errors
  end.

(** The errors of an answer of the validator. *)
Definition reported (answer : option (list string)) : list string :=
  default [] answer.

(** The value is the empty text. (An object, whatever its bytes, is not
    empty to the validator.) *)
Definition emptyValue (v : SqsMessageAttributeValue) : bool :=
  match v with
  | VString EmptyString => true
  | _ => false
  end.

(** The errors of the attribute at position [index], rule by rule. *)
Definition attributeErrors (index : nat) (attribute : SqsMessageAttribute)
    : list string :=
  ((if decide (name attribute = "") then
      ["Attribute Name at position " +:+ JSString.ofIndex index +:+ " is undefined."]
    else []) ++
   (if emptyValue (value attribute) then
      ["Attribute Value at position " +:+ JSString.ofIndex index +:+ " is undefined."]
    else if decide (type attribute = "Number" ∧
                    MessageUtils.isNumeric (value attribute) = false) then
      ["Attribute value at position " +:+ JSString.ofIndex index +:+ " is not a number."]
    else []) ++
   (if decide (type attribute ∈ ["String"; "Number"; "Binary"]) then []
    else
      ["Attribute Data Type at position " +:+ JSString.ofIndex index +:+ " is invalid."]))%list.

(** The errors of the attributes, position after position. *)
Definition attributesErrors (attributes : list SqsMessageAttribute)
    : list string :=
  concat (imap attributeErrors attributes).

(** The errors of the message as a whole. *)
Definition generalErrors (message : SqsMessage) : list string :=
  (if decide (body message = "") then ["Body is not defined."] else []) ++
  (if decide (NoDup (name <$> attributes message)) then []
   else ["Attribute Name is not unique."]).

Definition collected (message : SqsMessage) : list string :=
  generalErrors message ++ attributesErrors (attributes message).

(** The wire record of an attribute: its type tag, and its value as
    [StringValue] when the tag is String or Number and as [BinaryValue]
    when it is Binary. *)
Definition wire (attribute : SqsMessageAttribute) : MessageAttributeValue :=
  if decide (type attribute = "Binary") then
    {| DataType := type attribute;
       StringValue := None;
       BinaryValue := Some (value attribute) |}
  else
    {| DataType := type attribute;
       StringValue := Some (value attribute);
       BinaryValue := None |}.

(** The closed set of attribute types. *)
Definition knownType (attribute : SqsMessageAttribute) : Prop :=
  type attribute ∈ ["String"; "Number"; "Binary"].

(** [x] occurs in [l] at a position before an occurrence of [y]. *)
Definition precedes {A} (x y : A) (l : list A) : Prop :=
  exists l1 l2 l3, l = l1 ++ x :: l2 ++ y :: l3.

(** How many times [error] occurs in [errors]. *)
Definition occurrences (error : string) (errors : list string) : nat :=
  count_occ string_dec errors error.

End Spec.

(** ** More vocabulary, for the properties beyond the specification *)

Module Shape.

(** An attribute the validator finds nothing to say about. *)
Definition attributeOk (attribute : SqsMessageAttribute) : Prop :=
  name attribute <> "" /\
  Spec.emptyValue (value attribute) = false /\
  Spec.knownType attribute /\
  (type attribute = "Number" -> MessageUtils.isNumeric (value attribute) = true).

(** A message the validator finds nothing to say about. *)
Definition messageOk (message : SqsMessage) : Prop :=
  body message <> "" /\
  Spec.pairwise_distinct name (attributes message) /\
  Forall attributeOk (attributes message).

(** An attribute without its identifier. *)
Definition content (attribute : SqsMessageAttribute)
    : string * string * SqsMessageAttributeValue :=
  (name attribute, type attribute, value attribute).

(** The source of randomness after [n] draws. *)
Definition advance (n : nat) (rnd : Random) : Random :=
  Nat.iter n (fun (r : Random) i => r (S i)) rnd.

(** The identifier made of the draw number [i] of [rnd]. *)
Definition drawn (rnd : Random) (i : nat) : string :=
  JSString.ofNumber (N.min (rnd i) 100000).

(** A seed item that has both a body and a list of attributes. *)
Definition complete (item : Item) : Prop :=
  is_Some (item_body item) /\ is_Some (item_attributes item).

End Shape.

(** ** Sample inputs *)

(** A body the small engine reads, with white space to remove. *)
Definition sampleBody : string :=
  "  {" +:+ String TinyJSON.quote ("a" +:+ String TinyJSON.quote " : 1}  ").

(** The same document with four spaces of indentation. *)
Definition sampleFormatted : string :=
  "{" +:+ String TinyJSON.newline
    ("    " +:+ String TinyJSON.quote
       ("a" +:+ String TinyJSON.quote (": 1" +:+ String TinyJSON.newline "}"))).

(** A body that looks like JSON and is not. *)
Definition brokenBody : string := " {oops} ".

(** A seed item that has no [attributes]. *)
Definition bareItem : Item :=
  {| item_body := Some "hello"; item_attributes := None |}.

(** The message of the connection test ([app.component.tsx]). *)
Definition connectionTest : SqsMessage :=
  {| message_id := "1"; body := "connection test"; attributes := []; errors := None |}.

(** A message whose only attribute has no name. *)
Definition unnamedAttribute : SqsMessage :=
  {| message_id := "1";
     body := "hello";
     attributes :=
       [ {| attribute_id := "2"; name := ""; type := "String"; value := VString "v" |} ];
     errors := None |}.

(** A message with three attributes of the same name. *)
Definition sameName : SqsMessage :=
  {| message_id := "1";
     body := "hello";
     attributes :=
       [ {| attribute_id := "2"; name := "a"; type := "String"; value := VString "x" |};
         {| attribute_id := "3"; name := "a"; type := "String"; value := VString "y" |};
         {| attribute_id := "4"; name := "a"; type := "Binary"; value := VString "z" |} ];
     errors := None |}.

(** A message whose attributes break several rules. *)
Definition brokenAttributes : SqsMessage :=
  {| message_id := "1";
     body := "";
     attributes :=
       [ {| attribute_id := "2"; name := ""; type := "String"; value := VString "v" |};
         {| attribute_id := "3"; name := "a"; type := "Number"; value := VString "abc" |};
         {| attribute_id := "4"; name := "a"; type := "Text"; value := VString "" |} ];
     errors := None |}.

(** A message whose body is white space only. *)
Definition blankMessage : SqsMessage :=
  {| message_id := "1"; body := "   "; attributes := []; errors := None |}.

(** A seed item whose body is white space only. *)
Definition blankItem : Item :=
  {| item_body := Some "   "; item_attributes := Some [] |}.

(** A message with no body and no attribute. *)
Definition emptyMessage : SqsMessage :=
  {| message_id := "1"; body := ""; attributes := []; errors := None |}.

(** The message of the round-trip scenario of the specification. *)
Definition twoAttributes : SqsMessage :=
  {| message_id := "1";
     body := "hello";
     attributes :=
       [ {| attribute_id := "2"; name := "a"; type := "String"; value := VString "x" |};
         {| attribute_id := "3"; name := "b"; type := "Number"; value := VString "5" |} ];
     errors := None |}.

(** A seed item: the body of [sampleBody] and the attributes of
    [twoAttributes]. *)
Definition seedItem : Item :=
  {| item_body := Some sampleBody; item_attributes := Some (attributes twoAttributes) |}.

(** The source of randomness that always gives 7. *)
Definition sevens : Random := fun _ => 7%N.

(** What [toMessage] makes of [seedItem] with [sevens]. *)
Definition seedMessage : SqsMessage :=
  {| message_id := "7";
     body := sampleFormatted;
     attributes :=
       [ {| attribute_id := "7"; name := "a"; type := "String"; value := VString "x" |};
         {| attribute_id := "7"; name := "b"; type := "Number"; value := VString "5" |} ];
     errors := None |}.

(** Three messages with the identifiers 1, 2 and 3. *)
Definition threeMessages : list SqsMessage :=
  [ {| message_id := "1"; body := "one"; attributes := []; errors := None |};
    {| message_id := "2"; body := "two"; attributes := []; errors := Some ["late"] |};
    {| message_id := "3"; body := "three"; attributes := []; errors := None |} ].

(** The attribute a user types over one of those of [seedMessage]. *)
Definition typedAttribute : SqsMessageAttribute :=
  {| attribute_id := "7"; name := "c"; type := "String"; value := VString "y" |}.

(** A message with white space around its body and an attribute of type
    String whose value is a buffer of two bytes. *)
Definition paddedMessage : SqsMessage :=
  {| message_id := "1";
     body := "  hello  ";
     attributes :=
       [ {| attribute_id := "2"; name := "a"; type := "String";
            value := VBinary {| payload := [Byte.x68; Byte.x69]; objToString := "hi" |} |} ];
     errors := None |}.

(** * Properties *)

(** ** Strings *)

Section StringFacts.

Import JSString.

Lemma at_0 c rest : at_ (String c rest) 0 = Some c.
Proof. reflexivity. Qed.

Lemma at_0_empty : at_ "" 0 = None.
Proof. reflexivity. Qed.

Lemma at_of_nat text n : at_ text (Z.of_nat n) = String.get n text.
Proof.
  unfold at_. destruct (Z.ltb_spec (Z.of_nat n) 0); [lia|].
  now rewrite Nat2Z.id.
Qed.

Lemma get_last c rest :
  String.get (String.length rest) (String c rest) = last_char (String c rest).
Proof.
  revert c. induction rest as [|c' rest' IH]; intros c; [reflexivity|].
  change (String.get (String.length (String c' rest')) (String c (String c' rest')))
    with (String.get (String.length rest') (String c' rest')).
  now rewrite IH.
Qed.

Lemma at_last text : at_ text (JSString.length text - 1) = last_char text.
Proof.
  destruct text as [|c rest]; [reflexivity|].
  unfold JSString.length. cbn [String.length].
  replace (Z.of_nat (S (String.length rest)) - 1)%Z
    with (Z.of_nat (String.length rest)) by lia.
  rewrite at_of_nat. apply get_last.
Qed.

Lemma trimStart_head c rest :
  isWhiteSpace c = false -> trimStart (String c rest) = String c rest.
Proof. intros Hc. simpl. now rewrite Hc. Qed.

Lemma trimStart_cases text :
  trimStart text = "" \/
  exists c rest, trimStart text = String c rest /\ isWhiteSpace c = false.
Proof.
  induction text as [|c rest IH]; [now left|].
  simpl. destruct (isWhiteSpace c) eqn:Hc; [exact IH|].
  right. now exists c, rest.
Qed.

Lemma trimEnd_head c rest :
  isWhiteSpace c = false -> exists rest', trimEnd (String c rest) = String c rest'.
Proof.
  intros Hc. simpl. destruct (trimEnd rest) as [|c' kept].
  - rewrite Hc. now exists "".
  - now exists (String c' kept).
Qed.

Lemma trimEnd_idempotent text : trimEnd (trimEnd text) = trimEnd text.
Proof.
  induction text as [|c rest IH]; [reflexivity|].
  simpl. destruct (trimEnd rest) as [|c' kept] eqn:Hrest.
  - destruct (isWhiteSpace c) eqn:Hc; [reflexivity|].
    simpl. now rewrite Hc.
  - change (trimEnd (String c (String c' kept)))
      with (match trimEnd (String c' kept) with
            | EmptyString =>
                if isWhiteSpace c then EmptyString else String c EmptyString
            | kept' => String c kept'
            end).
    now rewrite IH.
Qed.

Lemma trimEnd_last text c :
  last_char text = Some c -> isWhiteSpace c = false -> trimEnd text = text.
Proof.
  induction text as [|a rest IH]; [discriminate|].
  intros Hlast Hc. destruct rest as [|a' rest'].
  - injection Hlast as ->. simpl. now rewrite Hc.
  - change (last_char (String a (String a' rest')))
      with (last_char (String a' rest')) in Hlast.
    specialize (IH Hlast Hc).
    change (trimEnd (String a (String a' rest')))
      with (match trimEnd (String a' rest') with
            | EmptyString =>
                if isWhiteSpace a then EmptyString else String a EmptyString
            | kept' => String a kept'
            end).
    now rewrite IH.
Qed.

Lemma trim_idempotent text : trim (trim text) = trim text.
Proof.
  unfold trim.
  destruct (trimStart_cases text) as [-> | (c & rest & -> & Hc)]; [reflexivity|].
  destruct (trimEnd_head c rest Hc) as [rest' Hrest'].
  rewrite Hrest', (trimStart_head _ _ Hc), <- Hrest'.
  apply trimEnd_idempotent.
Qed.

(** A text between two characters that are not white space is left
    as it is. *)
Lemma trim_fixed text first final :
  at_ text 0 = Some first -> isWhiteSpace first = false ->
  at_ text (JSString.length text - 1) = Some final -> isWhiteSpace final = false ->
  trim text = text.
Proof.
  intros Hfirst Hf Hfinal Hl. rewrite at_last in Hfinal.
  destruct text as [|c rest]; [discriminate|].
  rewrite at_0 in Hfirst. injection Hfirst as ->.
  unfold trim. rewrite (trimStart_head _ _ Hf).
  now apply (trimEnd_last _ final).
Qed.

End StringFacts.

(** ** [formatBody] *)

Section FormatBody.

Import JSString MessageUtils.
Context {J : JSON}.

Lemma isJson_spec text :
  isJson text = true <->
  at_ text 0 = Some "{"%char /\ at_ text (JSString.length text - 1) = Some "}"%char.
Proof.
  unfold isJson. rewrite andb_true_iff, !bool_decide_eq_true. reflexivity.
Qed.

Lemma isJson_trim_fixed text : isJson text = true -> trim text = text.
Proof.
  rewrite isJson_spec. intros [Hfirst Hfinal].
  now apply (trim_fixed text "{"%char "}"%char).
Qed.

Lemma formatBody_not_json body :
  isJson (trim body) = false -> formatBody body = trim body.
Proof. intros Hshape. unfold formatBody. now rewrite Hshape. Qed.

Lemma formatBody_parse_failure body e :
  JSON_parse (trim body) = Throw e -> formatBody body = trim body.
Proof.
  intros Hparse. unfold formatBody.
  destruct (isJson (trim body)); [|reflexivity].
  now rewrite Hparse.
Qed.

Lemma formatBody_parsed body obj :
  isJson (trim body) = true -> JSON_parse (trim body) = Ok obj ->
  formatBody body = JSON_stringify obj 4.
Proof. intros Hshape Hparse. unfold formatBody. now rewrite Hshape, Hparse. Qed.

(** C8. [formatBody] returns a text for every body, and it returns the
    trimmed body itself whenever the trimmed body does not both begin
    with an opening and end with a closing brace, or [JSON.parse]
    throws on it: the exception is absorbed by the [catch]. *)
Theorem formatBody_passes_through body :
  isJson (trim body) = false \/ (exists e, JSON_parse (trim body) = Throw e) ->
  formatBody body = trim body.
Proof.
  intros [Hshape | [e Hparse]].
  - now apply formatBody_not_json.
  - now apply (formatBody_parse_failure body e).
Qed.

(** C7. Formatting a formatted body changes nothing, for every body
    and every JSON implementation whose output is read back as ECMA-262
    requires. *)
Theorem formatBody_idempotent `{!JSONRoundTrip J} body :
  formatBody (formatBody body) = formatBody body.
Proof.
  destruct (isJson (trim body)) eqn:Hshape.
  - destruct (JSON_parse (trim body)) as [obj|e] eqn:Hparse.
    + rewrite (formatBody_parsed body obj Hshape Hparse).
      apply isJson_spec in Hshape as [Hfirst _].
      destruct (stringify_object_braces _ _ 4 Hfirst Hparse) as [Hopen Hclose].
      destruct (stringify_parse_stable _ _ 4 Hparse) as (obj' & Hparse' & Hsame).
      assert (Hshape' : isJson (JSON_stringify obj 4) = true)
        by now apply isJson_spec.
      pose proof (isJson_trim_fixed _ Hshape') as Htrim.
      rewrite <- Htrim in Hshape', Hparse'.
      now rewrite (formatBody_parsed _ obj' Hshape' Hparse').
    + rewrite (formatBody_parse_failure body e Hparse).
      rewrite <- (trim_idempotent body) at 2.
      apply (formatBody_parse_failure _ e). now rewrite trim_idempotent.
  - rewrite (formatBody_not_json body Hshape).
    rewrite <- (trim_idempotent body) at 2.
    apply formatBody_not_json. now rewrite trim_idempotent.
Qed.

End FormatBody.

(** ** The small JSON engine honours the contract *)

Module TinyJSONFacts.

Import JSString TinyJSON.

Local Ltac by_gap space :=
  let k := fresh "k" in
  let Hk := fresh "Hk" in
  set (k := Nat.min space 10);
  assert (Hk : k <= 10) by (subst k; lia);
  clearbody k;
  do 11 (destruct k as [|k]; [vm_compute; auto|]);
  lia.

Lemma stringify_braces value space :
  at_ (stringify value space) 0 = Some "{"%char /\
  at_ (stringify value space) (JSString.length (stringify value space) - 1)
    = Some "}"%char.
Proof.
  destruct value; [now vm_compute|].
  unfold stringify. by_gap space.
Qed.

Lemma parse_stringify value space : parse (stringify value space) = Ok value.
Proof.
  destruct value; [reflexivity|].
  unfold stringify. by_gap space.
Qed.

#[global] Instance engine_round_trip : JSONRoundTrip engine.
Proof.
  split.
  - intros text obj space _ _. apply stringify_braces.
  - intros text obj space _. exists obj. split; [apply parse_stringify|reflexivity].
Qed.

End TinyJSONFacts.

Example formatBody_sample :
  MessageUtils.formatBody (J := TinyJSON.engine) sampleBody = sampleFormatted.
Proof. reflexivity. Qed.

(** Idempotence on [sampleBody], with the small engine. *)
Lemma formatBody_idempotent_witness :
  JSONRoundTrip TinyJSON.engine /\
  MessageUtils.formatBody (J := TinyJSON.engine)
    (MessageUtils.formatBody (J := TinyJSON.engine) sampleBody)
  = MessageUtils.formatBody (J := TinyJSON.engine) sampleBody.
Proof.
  split.
  - exact TinyJSONFacts.engine_round_trip.
  - apply (@formatBody_idempotent TinyJSON.engine TinyJSONFacts.engine_round_trip).
Defined.

(** [brokenBody] opens and closes with braces and is not JSON: it comes back
    trimmed. *)
Lemma formatBody_passes_through_witness :
  (MessageUtils.isJson (JSString.trim brokenBody) = false \/
   exists e, JSON_parse (JSON := TinyJSON.engine) (JSString.trim brokenBody) = Throw e) /\
  MessageUtils.formatBody (J := TinyJSON.engine) brokenBody = "{oops}".
Proof.
  split.
  - right. eexists. reflexivity.
  - apply (@formatBody_passes_through TinyJSON.engine brokenBody).
    right. eexists. reflexivity.
Defined.

(** ** [isPropertyUnique] *)

Section IsPropertyUnique.

Import MessageUtils.
Context {TObject V : Type} `{EqDecision V}.
Variable key : TObject -> V.

(** The callback of the [reduce]. *)
Let collect (values : list V) (obj : TObject) : list V :=
  if (0 <=? indexOf values (key obj))%Z then values else values ++ [key obj].

Lemma indexOf_lower_bound (values : list V) x : (-1 <= indexOf values x)%Z.
Proof.
  induction values as [|y rest IH]; simpl; [lia|].
  case_decide; [lia|]. destruct (Z.ltb_spec (indexOf rest x) 0); lia.
Qed.

Lemma indexOf_found (values : list V) x :
  (0 <=? indexOf values x)%Z = true <-> x ∈ values.
Proof.
  rewrite Z.leb_le. induction values as [|y rest IH]; simpl.
  - rewrite elem_of_nil. lia.
  - rewrite elem_of_cons. case_decide as Hy.
    + split; [auto | lia].
    + destruct (Z.ltb_spec (indexOf rest x) 0) as [Hneg | Hpos].
      * split; [lia|]. intros [-> | Hin]; [done|]. apply IH in Hin. lia.
      * pose proof (indexOf_lower_bound rest x).
        split; [intros _; right; apply IH; lia | lia].
Qed.

Lemma collect_length (objects : list TObject) (values : list V) :
  length (fold_left collect objects values) <= length values + length objects.
Proof.
  revert values. induction objects as [|obj rest IH]; intros values; simpl; [lia|].
  specialize (IH (collect values obj)).
  assert (length (collect values obj) <= S (length values)); [|lia].
  unfold collect. destruct (0 <=? indexOf values (key obj))%Z; [lia|].
  rewrite length_app. simpl. lia.
Qed.

(** Nothing is dropped exactly when the values to come are distinct and
    new. *)
Lemma collect_keeps_all (objects : list TObject) (values : list V) :
  length (fold_left collect objects values) = length values + length objects <->
  NoDup (key <$> objects) /\ (forall x, x ∈ key <$> objects -> x ∉ values).
Proof.
  revert values. induction objects as [|obj rest IH]; intros values.
  - simpl. split; [|lia]. intros _. split; [constructor|].
    intros x Hx. now apply elem_of_nil in Hx.
  - cbn [fold_left fmap list_fmap length]. rewrite NoDup_cons.
    destruct (0 <=? indexOf values (key obj))%Z eqn:Hfound.
    + assert (Hstep : collect values obj = values)
        by (unfold collect; now rewrite Hfound).
      rewrite Hstep. apply indexOf_found in Hfound.
      pose proof (collect_length rest values). split; [lia|].
      intros [_ Hnew]. exfalso. apply (Hnew (key obj)); [left|done].
    + assert (Hstep : collect values obj = values ++ [key obj])
        by (unfold collect; now rewrite Hfound).
      rewrite Hstep.
      assert (Hfresh : key obj ∉ values).
      { intros Hin. apply indexOf_found in Hin. congruence. }
      specialize (IH (values ++ [key obj])).
      rewrite length_app in IH. simpl in IH.
      replace (length values + S (length rest))
        with (length values + 1 + length rest) by lia.
      rewrite IH. split.
      * intros [Hnodup Hnew]. split; [split; [|done]|].
        -- intros Hin. apply (Hnew _ Hin), elem_of_app. right. apply list_elem_of_singleton. reflexivity.
        -- intros x [-> | Hx]%elem_of_cons; [done|].
           intros Hin. apply (Hnew _ Hx), elem_of_app. now left.
      * intros [[Hhead Hnodup] Hnew]. split; [done|].
        intros x Hx [Hin | ->%list_elem_of_singleton]%elem_of_app; [|done].
        apply (Hnew x); [now right | done].
Qed.

Lemma isPropertyUnique_NoDup (objects : list TObject) :
  isPropertyUnique key objects = true <-> NoDup (key <$> objects).
Proof.
  unfold isPropertyUnique, reduce. rewrite bool_decide_eq_true.
  pose proof (collect_keeps_all objects []) as Hall. simpl in Hall.
  unfold collect in Hall. rewrite Hall. split; [now intros [? _]|].
  intros Hnodup. split; [done|]. intros x _. apply not_elem_of_nil.
Qed.

Lemma pairwise_distinct_NoDup (objects : list TObject) :
  Spec.pairwise_distinct key objects <-> NoDup (key <$> objects).
Proof.
  rewrite NoDup_alt. unfold Spec.pairwise_distinct. split.
  - intros Hdistinct i j x Hi Hj.
    rewrite list_lookup_fmap in Hi, Hj.
    destruct (objects !! i) as [oi|] eqn:Hoi; [|done].
    destruct (objects !! j) as [oj|] eqn:Hoj; [|done].
    simpl in Hi, Hj. destruct (decide (i = j)) as [|Hne]; [done|].
    exfalso. apply (Hdistinct i j oi oj Hne Hoi Hoj). congruence.
  - intros Hnodup i j oi oj Hne Hoi Hoj Heq. apply Hne.
    apply (Hnodup i j (key oi)); rewrite list_lookup_fmap.
    + now rewrite Hoi.
    + rewrite Hoj. simpl. now rewrite Heq.
Qed.

Lemma duplicate_positions (values : list V) :
  ~ NoDup values ->
  exists i j x, i <> j /\ values !! i = Some x /\ values !! j = Some x.
Proof.
  induction values as [|x rest IH]; intros Hdup.
  - exfalso. apply Hdup. constructor.
  - destruct (decide (x ∈ rest)) as [Hin | Hfresh].
    + apply list_elem_of_lookup in Hin as [k Hk].
      exists 0, (S k), x. split; [lia|]. split; [reflexivity | exact Hk].
    + destruct IH as (i & j & y & Hne & Hi & Hj).
      { intros Hnodup. apply Hdup. now constructor. }
      exists (S i), (S j), y. split; [lia|]. split; [exact Hi | exact Hj].
Qed.

Lemma shared_not_NoDup (objects : list TObject) :
  Spec.shared key objects <-> ~ NoDup (key <$> objects).
Proof.
  rewrite <- pairwise_distinct_NoDup. unfold Spec.shared, Spec.pairwise_distinct.
  split.
  - intros (i & j & oi & oj & Hne & Hoi & Hoj & Heq) Hdistinct.
    now apply (Hdistinct i j oi oj).
  - intros Hnot.
    destruct (duplicate_positions (key <$> objects)) as (i & j & x & Hne & Hi & Hj).
    { intros Hnodup. apply Hnot. now apply pairwise_distinct_NoDup. }
    rewrite list_lookup_fmap in Hi, Hj.
    destruct (objects !! i) as [oi|] eqn:Hoi; [|done].
    destruct (objects !! j) as [oj|] eqn:Hoj; [|done].
    simpl in Hi, Hj. exists i, j, oi, oj.
    split; [exact Hne|]. split; [exact Hoi|]. split; [exact Hoj | congruence].
Qed.

(** C9. [isPropertyUnique] answers true exactly when the values of the
    field are pairwise distinct over the list; it answers true on the
    empty list; and its answer is the same on every permutation of the
    list. *)
Theorem isPropertyUnique_pairwise_distinct (objects : list TObject) :
  (isPropertyUnique key objects = true <-> Spec.pairwise_distinct key objects) /\
  isPropertyUnique key [] = true /\
  (forall objects', objects ≡ₚ objects' ->
     isPropertyUnique key objects' = isPropertyUnique key objects).
Proof.
  split; [|split].
  - now rewrite isPropertyUnique_NoDup, pairwise_distinct_NoDup.
  - reflexivity.
  - intros objects' Hperm. apply eq_true_iff_eq.
    rewrite !isPropertyUnique_NoDup. now rewrite Hperm.
Qed.

End IsPropertyUnique.

(** ** [validateMessage] *)

Section ValidateMessage.

Import MessageUtils.

Lemma concat_precedes {A} (ls : list (list A)) i j li lj (x y : A) :
  i < j -> ls !! i = Some li -> ls !! j = Some lj ->
  x ∈ li -> y ∈ lj -> Spec.precedes x y (concat ls).
Proof.
  intros Hlt Hi Hj Hx Hy.
  pose proof (take_drop_middle ls i li Hi) as Hsplit.
  assert (Hj' : drop (S i) ls !! (j - S i) = Some lj).
  { rewrite lookup_drop. now replace (S i + (j - S i)) with j by lia. }
  pose proof (take_drop_middle _ _ _ Hj') as Hsplit'.
  apply list_elem_of_split in Hx as (a & b & ->).
  apply list_elem_of_split in Hy as (c & d & ->).
  exists (concat (take i ls) ++ a),
         (b ++ concat (take (j - S i) (drop (S i) ls)) ++ c),
         (d ++ concat (drop (S (j - S i)) (drop (S i) ls))).
  rewrite <- Hsplit at 1. rewrite <- Hsplit' at 1.
  rewrite concat_app. cbn [concat]. rewrite concat_app. cbn [concat].
  repeat (rewrite <- app_assoc; cbn [app]).
  reflexivity.
Qed.

Lemma precedes_app_l {A} (x y : A) prefix l :
  Spec.precedes x y l -> Spec.precedes x y (prefix ++ l).
Proof.
  intros (l1 & l2 & l3 & ->). exists (prefix ++ l1), l2, l3.
  now rewrite <- app_assoc.
Qed.

Lemma validateAttribute_spec errors attribute index :
  validateAttribute (Object_keys getAttributeTypes) errors attribute index
  = errors ++ Spec.attributeErrors index attribute.
Proof.
  unfold validateAttribute, Spec.attributeErrors, push, some.
  destruct attribute as [id' name' type' value']. cbn [name type value].
  assert (Hname : negb (JSString.truthy name') = bool_decide (name' = "")).
  { now destruct name'. }
  assert (Hvalue : negb (ToBoolean value') = Spec.emptyValue value').
  { now destruct value' as [[|]|]. }
  assert (Hnumber :
    String.eqb type' "Number" && negb (isNumeric value')
    = bool_decide (type' = "Number" ∧ isNumeric value' = false)).
  { destruct (String.eqb_spec type' "Number") as [Heq | Hne];
      destruct (isNumeric value'); cbn [andb negb]; symmetry;
      try (apply bool_decide_eq_true_2; now split);
      apply bool_decide_eq_false_2; intros [? ?]; congruence. }
  assert (Htype :
    negb (existsb (fun type'' => String.eqb type' type'') (Object_keys getAttributeTypes))
    = negb (bool_decide (type' ∈ ["String"; "Number"; "Binary"]))).
  { f_equal. cbn.
    destruct (String.eqb_spec type' "String") as [-> | H1]; [now vm_compute|].
    destruct (String.eqb_spec type' "Binary") as [-> | H2]; [now vm_compute|].
    destruct (String.eqb_spec type' "Number") as [-> | H3]; [now vm_compute|].
    symmetry. apply bool_decide_eq_false_2.
    rewrite !elem_of_cons, elem_of_nil. intros [?|[?|[?|[]]]]; congruence. }
  rewrite Hname, Hvalue, Hnumber, Htype.
  destruct (Spec.emptyValue value');
    repeat case_bool_decide; repeat case_decide; try contradiction;
    cbn [negb]; rewrite <- ?app_assoc; cbn [app]; rewrite ?app_nil_r; reflexivity.
Qed.

Lemma forEach_validateAttribute attributes index errors :
  forEach (validateAttribute (Object_keys getAttributeTypes)) attributes index errors
  = errors ++ concat (imap (fun k => Spec.attributeErrors (index + k)) attributes).
Proof.
  revert index errors.
  induction attributes as [|attribute rest IH]; intros index errors.
  - simpl. now rewrite app_nil_r.
  - cbn [forEach]. rewrite IH, validateAttribute_spec, imap_cons.
    cbn [concat]. rewrite Nat.add_0_r, <- app_assoc. do 3 f_equal.
    apply imap_ext. intros k a _. unfold compose. f_equal. lia.
Qed.

Lemma answer_result (errors : list string) :
  (if bool_decide (length errors ≠ 0) then Some errors else None)
  = Spec.result errors.
Proof. now destruct errors. Qed.

(** The validator, on a message, computes the collected errors of the
    specification. *)
Lemma validateMessage_collected (message : SqsMessage) :
  validateMessage message = Ok (Spec.result (Spec.collected message)).
Proof.
  unfold validateMessage. cbn [item_of item_body item_attributes defined mbind Result_bind].
  rewrite forEach_validateAttribute, answer_result.
  unfold mret, Result_ret. do 2 f_equal.
  unfold Spec.collected, Spec.generalErrors, Spec.attributesErrors, push, falsy.
  f_equal.
  assert (Hunique :
    negb (isPropertyUnique name (attributes message))
    = negb (bool_decide (NoDup (name <$> attributes message)))).
  { f_equal. apply eq_true_iff_eq.
    now rewrite isPropertyUnique_NoDup, bool_decide_eq_true. }
  rewrite Hunique.
  destruct (body message); cbn [JSString.truthy negb];
    repeat case_bool_decide; repeat case_decide; try contradiction; try discriminate;
    reflexivity.
Qed.

End ValidateMessage.

(** ** What the validator reports *)

Section Reports.

Import MessageUtils.

Lemma reported_result errors : Spec.reported (Spec.result errors) = errors.
Proof. now destruct errors. Qed.

(** Every error of an attribute names its position after one of four
    openings. *)
Lemma attributeErrors_shape index attribute e :
  e ∈ Spec.attributeErrors index attribute ->
  exists rest,
    e = "Attribute Name at position " +:+ rest \/
    e = "Attribute Value at position " +:+ rest \/
    e = "Attribute value at position " +:+ rest \/
    e = "Attribute Data Type at position " +:+ rest.
Proof.
  unfold Spec.attributeErrors.
  intros He. apply elem_of_app in He as [He | He]; [|apply elem_of_app in He as [He | He]].
  - case_decide; [|now apply elem_of_nil in He].
    apply list_elem_of_singleton in He as ->. eexists. left. reflexivity.
  - destruct (Spec.emptyValue (value attribute)).
    + apply list_elem_of_singleton in He as ->. eexists. right. left. reflexivity.
    + case_decide; [|now apply elem_of_nil in He].
      apply list_elem_of_singleton in He as ->.
      eexists. right. right. left. reflexivity.
  - case_decide; [now apply elem_of_nil in He|].
    apply list_elem_of_singleton in He as ->.
    eexists. right. right. right. reflexivity.
Qed.

Lemma attributeErrors_not_body index attribute :
  "Body is not defined." ∉ Spec.attributeErrors index attribute.
Proof.
  intros (rest & [He | [He | [He | He]]])%attributeErrors_shape; discriminate He.
Qed.

Lemma attributeErrors_not_unique index attribute :
  "Attribute Name is not unique." ∉ Spec.attributeErrors index attribute.
Proof.
  intros (rest & [He | [He | [He | He]]])%attributeErrors_shape; discriminate He.
Qed.

Lemma occurrences_app e l1 l2 :
  Spec.occurrences e (l1 ++ l2) = Spec.occurrences e l1 + Spec.occurrences e l2.
Proof. apply count_occ_app. Qed.

Lemma occurrences_absent e l : e ∉ l <-> Spec.occurrences e l = 0.
Proof. unfold Spec.occurrences. rewrite list_elem_of_In. apply count_occ_not_In. Qed.

Lemma attributesErrors_absent e attributes :
  (forall index attribute, e ∉ Spec.attributeErrors index attribute) ->
  Spec.occurrences e (Spec.attributesErrors attributes) = 0.
Proof.
  intros Hnone. apply occurrences_absent. unfold Spec.attributesErrors.
  rewrite list_elem_of_In, in_concat.
  intros (errors & Hin & He).
  apply list_elem_of_In in Hin. apply list_elem_of_In in He.
  apply elem_of_lookup_imap in Hin as (index & attribute & -> & _).
  now apply (Hnone index attribute).
Qed.

(** C1. On every message the validator answers with the errors of the
    message as a whole followed by the errors of its attributes taken
    position after position from 0, each attribute contributing, in
    this order and whatever the other attributes: the undefined-name
    error when its name is empty; the undefined-value error when its
    value is empty, and otherwise the not-a-number error when its type
    is Number and the value is not numeric; the invalid-type error when
    its type is none of String, Number and Binary. So an error of the
    attribute at position [i] comes before an error of the attribute at
    a later position [j]. *)
Theorem validateMessage_attribute_errors (message : SqsMessage) :
  validateMessage message
  = Ok (Spec.result (Spec.generalErrors message ++
                     concat (imap Spec.attributeErrors (attributes message)))) /\
  forall i j ai aj ei ej,
    i < j ->
    attributes message !! i = Some ai -> attributes message !! j = Some aj ->
    ei ∈ Spec.attributeErrors i ai -> ej ∈ Spec.attributeErrors j aj ->
    Spec.precedes ei ej (Spec.generalErrors message ++
                         concat (imap Spec.attributeErrors (attributes message))).
Proof.
  split; [apply validateMessage_collected|].
  intros i j ai aj ei ej Hlt Hi Hj Hei Hej. apply precedes_app_l.
  apply (concat_precedes _ i j (Spec.attributeErrors i ai) (Spec.attributeErrors j aj));
    [done | | | done | done]; rewrite list_lookup_imap.
  - now rewrite Hi.
  - now rewrite Hj.
Qed.

(** C2, as amended. On every message whose body, as the message holds
    it, is the empty text, the validator reports "Body is not defined."
    and reports it exactly once. *)
Theorem validateMessage_empty_body (message : SqsMessage) :
  body message = "" ->
  exists errors,
    validateMessage message = Ok (Some errors) /\
    Spec.occurrences "Body is not defined." errors = 1.
Proof.
  intros Hbody. exists (Spec.collected message).
  rewrite validateMessage_collected.
  assert (Hcount : Spec.occurrences "Body is not defined." (Spec.collected message) = 1).
  { unfold Spec.collected, Spec.generalErrors.
    rewrite !occurrences_app, Hbody.
    rewrite (attributesErrors_absent _ _ attributeErrors_not_body).
    case_decide; [|done]. now case_decide. }
  split; [|exact Hcount].
  destruct (Spec.collected message); [discriminate Hcount | reflexivity].
Qed.

(** C6. When two attributes at different positions share a name the
    validator reports "Attribute Name is not unique." exactly once,
    however many attributes share names; when the names are pairwise
    distinct it does not report it. *)
Theorem validateMessage_name_uniqueness (message : SqsMessage) :
  exists answer,
    validateMessage message = Ok answer /\
    (Spec.shared name (attributes message) ->
     Spec.occurrences "Attribute Name is not unique." (Spec.reported answer) = 1) /\
    (Spec.pairwise_distinct name (attributes message) ->
     "Attribute Name is not unique." ∉ Spec.reported answer).
Proof.
  exists (Spec.result (Spec.collected message)).
  split; [apply validateMessage_collected|].
  rewrite reported_result, occurrences_absent.
  unfold Spec.collected, Spec.generalErrors.
  rewrite !occurrences_app.
  rewrite (attributesErrors_absent _ _ attributeErrors_not_unique).
  split.
  - intros Hshared%shared_not_NoDup.
    case_decide; (case_decide; [contradiction|]); reflexivity.
  - intros Hdistinct%pairwise_distinct_NoDup.
    case_decide; (case_decide; [|contradiction]); reflexivity.
Qed.

End Reports.

(** The body of [blankMessage] is empty once formatted, and the validator
    does not report it: it tests the body as the message holds it. *)
Lemma validateMessage_blank_body_counterexample :
  MessageUtils.formatBody (J := TinyJSON.engine) (body blankMessage) = "" /\
  ~ (exists errors,
       MessageUtils.validateMessage blankMessage = Ok (Some errors) /\
       "Body is not defined." ∈ errors).
Proof.
  split; [reflexivity|].
  intros (errors & Hanswer & _). vm_compute in Hanswer. discriminate Hanswer.
Qed.

(** The empty body of [emptyMessage] is reported once. *)
Lemma validateMessage_empty_body_witness :
  body emptyMessage = "" /\
  exists errors,
    MessageUtils.validateMessage emptyMessage = Ok (Some errors) /\
    Spec.occurrences "Body is not defined." errors = 1.
Proof.
  split; [reflexivity|].
  apply (validateMessage_empty_body emptyMessage). reflexivity.
Defined.

(** ** [toRequest] *)

Section ToRequest.

Import MessageUtils.

(** The callback of the [reduce] of [toRequest]. *)
Let extend (map : Result (gmap string MessageAttributeValue))
    (attribute : SqsMessageAttribute) : Result (gmap string MessageAttributeValue) :=
  map ← map;
  mapped ← mapAttribute attribute;
  mret (<[name attribute := mapped]> map).

Let put (map : gmap string MessageAttributeValue) (attribute : SqsMessageAttribute) :=
  <[name attribute := Spec.wire attribute]> map.

Lemma knownType_cases attribute :
  Spec.knownType attribute ->
  type attribute = "String" \/ type attribute = "Number" \/ type attribute = "Binary".
Proof.
  unfold Spec.knownType. rewrite !elem_of_cons, elem_of_nil. tauto.
Qed.

Lemma mapAttribute_known attribute :
  Spec.knownType attribute -> mapAttribute attribute = Ok (Spec.wire attribute).
Proof.
  intros Hknown%knownType_cases. unfold mapAttribute, Spec.wire.
  destruct Hknown as [Heq | [Heq | Heq]]; rewrite Heq; reflexivity.
Qed.

Lemma mapAttribute_unknown attribute :
  ~ Spec.knownType attribute -> exists e, mapAttribute attribute = Throw e.
Proof.
  unfold Spec.knownType. rewrite !elem_of_cons, elem_of_nil. intros Hunknown.
  unfold mapAttribute.
  destruct (String.eqb_spec (type attribute) "String"); [tauto|].
  destruct (String.eqb_spec (type attribute) "Number"); [tauto|].
  destruct (String.eqb_spec (type attribute) "Binary"); [tauto|].
  eexists. reflexivity.
Qed.

Lemma reduce_known attributes map :
  Forall Spec.knownType attributes ->
  fold_left extend attributes (Ok map) = Ok (fold_left put attributes map).
Proof.
  intros Hknown. revert map.
  induction Hknown as [|attribute rest Hhead _ IH]; intros map; [reflexivity|].
  cbn [fold_left]. rewrite <- IH. f_equal.
  unfold extend, put. cbn [mbind Result_bind].
  now rewrite (mapAttribute_known _ Hhead).
Qed.

Lemma put_lookup_other attributes map key :
  key ∉ name <$> attributes -> fold_left put attributes map !! key = map !! key.
Proof.
  revert map. induction attributes as [|attribute rest IH]; intros map Hfresh; [reflexivity|].
  cbn [fold_left]. rewrite fmap_cons, not_elem_of_cons in Hfresh.
  destruct Hfresh as [Hne Hfresh]. rewrite (IH _ Hfresh).
  unfold put. now rewrite lookup_insert_ne.
Qed.

Lemma put_lookup attributes map attribute :
  NoDup (name <$> attributes) -> attribute ∈ attributes ->
  fold_left put attributes map !! name attribute = Some (Spec.wire attribute).
Proof.
  revert map. induction attributes as [|first rest IH]; intros map Hnodup Hin.
  - now apply elem_of_nil in Hin.
  - rewrite fmap_cons, NoDup_cons in Hnodup. destruct Hnodup as [Hfresh Hnodup].
    cbn [fold_left]. apply elem_of_cons in Hin as [-> | Hin].
    + rewrite (put_lookup_other _ _ _ Hfresh). unfold put. apply lookup_insert_eq.
    + now apply IH.
Qed.

Lemma put_keys attributes map key :
  is_Some (fold_left put attributes map !! key) <->
  key ∈ name <$> attributes \/ is_Some (map !! key).
Proof.
  revert map. induction attributes as [|first rest IH]; intros map.
  - cbn. rewrite elem_of_nil. tauto.
  - cbn [fold_left]. rewrite IH, fmap_cons, elem_of_cons. unfold put.
    destruct (decide (name first = key)) as [<- | Hne].
    + rewrite lookup_insert_eq. split; [auto|]. intros _. right. eauto.
    + rewrite lookup_insert_ne by done. split; [tauto|].
      intros [[Heq | Hin] | Hsome]; [congruence | tauto | tauto].
Qed.

(** What passing validation brings to [toRequest]. *)
Lemma validated_message (message : SqsMessage) :
  validateMessage message = Ok None ->
  NoDup (name <$> attributes message) /\ Forall Spec.knownType (attributes message).
Proof.
  rewrite validateMessage_collected. intros Hvalid.
  assert (Hnone : Spec.collected message = []).
  { destruct (Spec.collected message); [reflexivity | discriminate Hvalid]. }
  apply app_eq_nil in Hnone as [Hgeneral Hattributes].
  split.
  - unfold Spec.generalErrors in Hgeneral.
    apply app_eq_nil in Hgeneral as [_ Hunique].
    now case_decide.
  - unfold Spec.attributesErrors in Hattributes.
    apply concat_nil_Forall in Hattributes.
    apply Forall_lookup_2. intros index attribute Hlookup.
    rewrite Forall_forall in Hattributes.
    specialize (Hattributes (Spec.attributeErrors index attribute)).
    assert (Hempty : Spec.attributeErrors index attribute = []).
    { apply Hattributes. apply elem_of_lookup_imap. eauto. }
    unfold Spec.attributeErrors in Hempty.
    apply app_eq_nil in Hempty as [_ Hempty].
    apply app_eq_nil in Hempty as [_ Htype].
    unfold Spec.knownType. now case_decide.
Qed.

Lemma toRequest_validated queryUrl (message : SqsMessage) :
  validateMessage message = Ok None ->
  toRequest queryUrl message
  = Ok {| QueueUrl := queryUrl;
          MessageBody := body message;
          MessageAttributes := fold_left put (attributes message) ∅ |}.
Proof.
  intros [_ Hknown]%validated_message. unfold toRequest, reduce.
  pose proof (reduce_known (attributes message) ∅ Hknown) as Hreduce.
  unfold extend in Hreduce. now rewrite Hreduce.
Qed.

(** C4. For a message the validator accepts, [mapAttribute] throws on
    none of the attributes and [toRequest] returns a request, whatever
    the queue URL. *)
Theorem toRequest_does_not_throw queryUrl (message : SqsMessage) :
  validateMessage message = Ok None ->
  (forall attribute, attribute ∈ attributes message ->
     exists mapped, mapAttribute attribute = Ok mapped) /\
  exists request, toRequest queryUrl message = Ok request.
Proof.
  intros Hvalid. split.
  - intros attribute Hin.
    destruct (validated_message message Hvalid) as [_ Hknown].
    rewrite Forall_forall in Hknown.
    exists (Spec.wire attribute). now apply mapAttribute_known, Hknown.
  - eexists. now apply toRequest_validated.
Qed.

(** C5, as amended. For a message the validator accepts, [toRequest]
    returns the record made of the queue URL it was given, the body as
    the message holds it, which [toRequest] does not format, and a map
    whose keys are the names of the attributes, where the name of an
    attribute of type String or Number leads to its type tag with its
    value, as it is, in the field [StringValue], and the name of an
    attribute of type Binary to its type tag with its value, as it is, in
    the field [BinaryValue]. *)
Theorem toRequest_shape queryUrl (message : SqsMessage) :
  validateMessage message = Ok None ->
  exists map,
    toRequest queryUrl message
    = Ok {| QueueUrl := queryUrl;
            MessageBody := body message;
            MessageAttributes := map |} /\
    (forall key, is_Some (map !! key) <-> key ∈ name <$> attributes message) /\
    (forall attribute, attribute ∈ attributes message ->
       (type attribute = "String" \/ type attribute = "Number" ->
        map !! name attribute
        = Some {| DataType := type attribute;
                  StringValue := Some (value attribute);
                  BinaryValue := None |}) /\
       (type attribute = "Binary" ->
        map !! name attribute
        = Some {| DataType := type attribute;
                  StringValue := None;
                  BinaryValue := Some (value attribute) |})).
Proof.
  intros Hvalid. exists (fold_left put (attributes message) ∅).
  split; [now apply toRequest_validated|].
  destruct (validated_message message Hvalid) as [Hnodup _].
  split.
  - intros key. rewrite put_keys, lookup_empty.
    split; [intros [Hin | [? Hsome]]; [done | discriminate Hsome] | auto].
  - intros attribute Hin. rewrite (put_lookup _ _ _ Hnodup Hin).
    unfold Spec.wire. split.
    + intros [Heq | Heq]; rewrite Heq; reflexivity.
    + intros Heq. rewrite Heq. reflexivity.
Qed.

End ToRequest.

(** [twoAttributes] passes validation and is turned into a request. *)
Lemma toRequest_does_not_throw_witness :
  MessageUtils.validateMessage twoAttributes = Ok None /\
  ((forall attribute, attribute ∈ attributes twoAttributes ->
      exists mapped, MessageUtils.mapAttribute attribute = Ok mapped) /\
   exists request, MessageUtils.toRequest "queue" twoAttributes = Ok request).
Proof.
  split; [reflexivity|].
  apply (toRequest_does_not_throw "queue" twoAttributes). reflexivity.
Defined.

(** [paddedMessage] passes validation; its request carries the body with
    the white space [formatBody] would remove, and under [a] a
    [StringValue] that is the buffer, not a text. *)
Lemma toRequest_shape_counterexample :
  MessageUtils.validateMessage paddedMessage = Ok None /\
  exists request,
    MessageUtils.toRequest "queue" paddedMessage = Ok request /\
    MessageBody request = "  hello  " /\
    MessageUtils.formatBody (J := TinyJSON.engine) (body paddedMessage) = "hello" /\
    MessageBody request
    <> MessageUtils.formatBody (J := TinyJSON.engine) (body paddedMessage) /\
    forall text,
      MessageAttributes request !! "a"
      <> Some {| DataType := "String";
                 StringValue := Some (VString text);
                 BinaryValue := None |}.
Proof.
  split; [reflexivity|]. eexists. split; [reflexivity|].
  split; [reflexivity|]. split; [reflexivity|]. split.
  - cbn [MessageBody]. discriminate.
  - intros text Hlookup. cbn [MessageAttributes] in Hlookup.
    vm_compute in Hlookup. discriminate Hlookup.
Qed.

(** The request of [twoAttributes]: the keys [a] and [b], each with its type
    tag and its value. *)
Lemma toRequest_shape_witness :
  MessageUtils.validateMessage twoAttributes = Ok None /\
  exists map,
    MessageUtils.toRequest "queue" twoAttributes
    = Ok {| QueueUrl := "queue"; MessageBody := "hello"; MessageAttributes := map |} /\
    map !! "a" = Some {| DataType := "String";
                         StringValue := Some (VString "x");
                         BinaryValue := None |} /\
    map !! "b" = Some {| DataType := "Number";
                         StringValue := Some (VString "5");
                         BinaryValue := None |}.
Proof.
  split; [reflexivity|].
  destruct (toRequest_shape "queue" twoAttributes eq_refl) as (map & Hrequest & _ & Hwire).
  exists map. split; [exact Hrequest|]. split.
  - apply (Hwire {| attribute_id := "2"; name := "a"; type := "String"; value := VString "x" |}).
    + apply list_elem_of_here.
    + left. reflexivity.
  - apply (Hwire {| attribute_id := "3"; name := "b"; type := "Number"; value := VString "5" |}).
    + apply list_elem_of_further, list_elem_of_here.
    + right. reflexivity.
Defined.

(** ** [toMessage] *)

Section ToMessage.

Import MessageUtils.
Context {J : JSON}.

Lemma validateMessage_no_attributes item :
  item_attributes item = None ->
  validateMessage item = Throw (TypeError "Cannot read properties of undefined").
Proof. intros Hnone. unfold validateMessage. now rewrite Hnone. Qed.

Lemma Gen_bind_run {A B} (m : Gen A) (f : A -> Gen B) rnd :
  (m ≫= f) rnd
  = match m rnd with
    | Ok (x, rnd') => f x rnd'
    | Throw e => Throw e
    end.
Proof. reflexivity. Qed.

Lemma lift_run {A} (r : Result A) rnd :
  lift r rnd = match r with Ok x => Ok (x, rnd) | Throw e => Throw e end.
Proof. reflexivity. Qed.

(** The errors [toMessage] attaches are those of the item it was
    given. *)
Lemma toMessage_errors item rnd message rnd' :
  toMessage item rnd = Ok (message, rnd') ->
  validateMessage item = Ok (errors message).
Proof.
  unfold toMessage. rewrite Gen_bind_run. cbn [generateRandomId].
  rewrite Gen_bind_run, lift_run.
  destruct (item_body item) as [text|]; cbn [defined mbind Result_bind mret Result_ret];
    [|discriminate].
  rewrite Gen_bind_run.
  match goal with
  | |- context [match ?attributes ?r with Ok _ => _ | Throw _ => _ end] =>
      destruct (attributes r) as [[attributes' rnd1]|]; [|discriminate]
  end.
  rewrite Gen_bind_run, lift_run.
  destruct (validateMessage item) as [answer|e]; [|discriminate].
  intros [= <- _]. reflexivity.
Qed.

(** C10. On an item without [attributes], [validateMessage] throws a
    TypeError, having no list to read, and so does [toMessage], whatever
    the random numbers: no message is produced. *)
Theorem toMessage_without_attributes item rnd :
  item_attributes item = None ->
  (exists e, validateMessage item = Throw e) /\
  exists e, toMessage item rnd = Throw e.
Proof.
  intros Hnone. split.
  - eexists. now apply validateMessage_no_attributes.
  - unfold toMessage. rewrite Gen_bind_run. cbn [generateRandomId].
    rewrite Gen_bind_run, lift_run.
    destruct (item_body item) as [text|];
      cbn [defined mbind Result_bind mret Result_ret]; [|eauto].
    rewrite Gen_bind_run, Hnone. cbn [mret Gen_ret].
    rewrite Gen_bind_run, lift_run, (validateMessage_no_attributes item Hnone).
    eauto.
Qed.

(** C3, the code at the failing input. From the item whose body is
    three spaces [toMessage] produces a message with the empty body and
    no error attached, whereas the validator reports on that very
    message that its body is not defined. *)
Theorem toMessage_validates_the_item rnd :
  exists message rnd',
    toMessage blankItem rnd = Ok (message, rnd') /\
    body message = "" /\
    errors message = None /\
    validateMessage message = Ok (Some ["Body is not defined."]).
Proof. do 2 eexists. repeat split. Qed.

End ToMessage.

(** [bareItem] has a body and no attributes: [toMessage] throws. *)
Lemma toMessage_without_attributes_witness :
  item_attributes bareItem = None /\
  ((exists e, MessageUtils.validateMessage bareItem = Throw e) /\
   exists e, MessageUtils.toMessage (J := TinyJSON.engine) bareItem (fun _ => 7%N) = Throw e).
Proof.
  split; [reflexivity|].
  apply (@toMessage_without_attributes TinyJSON.engine bareItem (fun _ => 7%N)).
  reflexivity.
Defined.

(** ** The scenarios of the specification, run on the code *)

Section Scenarios.

Import MessageUtils.

Example numeric_values :
  map (fun text => isNumeric (VString text)) ["abc"; "42"; "-3.5"; "1e10"]
  = [false; true; true; true].
Proof. reflexivity. Qed.

Example numeric_corner_cases :
  map (fun text => isNumeric (VString text))
      [""; " 12 "; "12px"; "1e"; "."; ".5"; "5."; "0x1F"; "Infinity"; "--1"]
  = [false; true; false; false; false; true; true; true; true; false].
Proof. reflexivity. Qed.

Example connection_test_is_valid : validateMessage connectionTest = Ok None.
Proof. reflexivity. Qed.

Example connection_test_request :
  toRequest "queue" connectionTest
  = Ok {| QueueUrl := "queue"; MessageBody := "connection test"; MessageAttributes := ∅ |}.
Proof. reflexivity. Qed.

Example unnamed_attribute_errors :
  validateMessage unnamedAttribute
  = Ok (Some ["Attribute Name at position 0 is undefined."]).
Proof. reflexivity. Qed.

Example same_name_errors :
  validateMessage sameName = Ok (Some ["Attribute Name is not unique."]).
Proof. reflexivity. Qed.

Example broken_attributes_errors :
  validateMessage brokenAttributes
  = Ok (Some [ "Body is not defined.";
               "Attribute Name is not unique.";
               "Attribute Name at position 0 is undefined.";
               "Attribute value at position 1 is not a number.";
               "Attribute Value at position 2 is undefined.";
               "Attribute Data Type at position 2 is invalid." ]).
Proof. reflexivity. Qed.

Example unknown_type_throws :
  toRequest "queue" brokenAttributes
  = Throw (Error "Could not map unknown attribute type: 'Text'.").
Proof. reflexivity. Qed.

Example blank_item_message :
  toMessage (J := TinyJSON.engine) blankItem (fun _ => 7%N)
  = Ok ({| message_id := "7"; body := ""; attributes := []; errors := None |},
        fun _ => 7%N).
Proof. reflexivity. Qed.

End Scenarios.

(** * Properties beyond the specification *)

(** ** More on [validateMessage] *)

Section ValidateMessageMore.

Import MessageUtils.

Lemma attributeErrors_none index attribute :
  Spec.attributeErrors index attribute = [] <-> Shape.attributeOk attribute.
Proof.
  unfold Spec.attributeErrors, Shape.attributeOk, Spec.knownType. split.
  - intros Hnone. apply app_eq_nil in Hnone as [Hname Hnone].
    apply app_eq_nil in Hnone as [Hvalue Htype].
    destruct (decide (name attribute = "")) as [|Hnamed]; [discriminate Hname|].
    split; [exact Hnamed|].
    destruct (Spec.emptyValue (value attribute)); [discriminate Hvalue|].
    split; [reflexivity|].
    destruct (decide (type attribute ∈ ["String"; "Number"; "Binary"])) as [Hknown|];
      [|discriminate Htype].
    split; [exact Hknown|].
    intros Hnumber.
    destruct (decide (type attribute = "Number" ∧ isNumeric (value attribute) = false))
      as [|Hnot]; [discriminate Hvalue|].
    destruct (isNumeric (value attribute)); [reflexivity|].
    exfalso. apply Hnot. now split.
  - intros (Hname & Hvalue & Htype & Hnumber).
    rewrite (decide_False (P := name attribute = "")) by done.
    rewrite Hvalue, (decide_True (P := type attribute ∈ _)) by done.
    case_decide as Hnot; [|reflexivity].
    destruct Hnot as [Heq Hfalse]. rewrite (Hnumber Heq) in Hfalse. discriminate Hfalse.
Qed.

Lemma attributeErrors_length index attribute :
  length (Spec.attributeErrors index attribute) <= 3.
Proof.
  unfold Spec.attributeErrors.
  destruct (Spec.emptyValue (value attribute)); repeat case_decide;
    cbn [app length]; lia.
Qed.

Lemma attributesErrors_none attributes :
  Spec.attributesErrors attributes = [] <-> Forall Shape.attributeOk attributes.
Proof.
  unfold Spec.attributesErrors. rewrite concat_nil_Forall, Forall_forall. split.
  - intros Hnone. apply Forall_lookup_2. intros index attribute Hlookup.
    apply (attributeErrors_none index), Hnone, elem_of_lookup_imap. eauto.
  - intros Hok errors (index & attribute & -> & Hlookup)%elem_of_lookup_imap.
    apply attributeErrors_none. eapply Forall_lookup_1; eauto.
Qed.

Lemma generalErrors_none (message : SqsMessage) :
  Spec.generalErrors message = [] <->
  body message <> "" /\ NoDup (name <$> attributes message).
Proof.
  unfold Spec.generalErrors. repeat case_decide; cbn [app]; split;
    try discriminate; try tauto.
Qed.

Lemma collected_none (message : SqsMessage) :
  Spec.collected message = [] <-> Shape.messageOk message.
Proof.
  unfold Spec.collected, Shape.messageOk.
  rewrite pairwise_distinct_NoDup, <- attributesErrors_none.
  split.
  - intros [Hgeneral Hattributes]%app_eq_nil.
    apply generalErrors_none in Hgeneral. tauto.
  - intros (Hbody & Hnames & ->). rewrite app_nil_r. now apply generalErrors_none.
Qed.

Lemma result_none errors : Spec.result errors = None <-> errors = [].
Proof. now destruct errors. Qed.

(** X1. The validator accepts a message exactly when its body is not
    empty, the names of its attributes are pairwise distinct, and every
    attribute has a name, a value, one of the three types and, when the
    type is Number, a numeric value. *)
Theorem validateMessage_accepts (message : SqsMessage) :
  validateMessage message = Ok None <-> Shape.messageOk message.
Proof.
  rewrite validateMessage_collected, <- collected_none, <- result_none.
  split; [now intros [= ->] | now intros ->].
Qed.

Lemma attributesErrors_length attributes :
  length (Spec.attributesErrors attributes) <= 3 * length attributes.
Proof.
  unfold Spec.attributesErrors.
  generalize Spec.attributeErrors, attributeErrors_length. intros f Hf.
  revert f Hf. induction attributes as [|attribute rest IH]; intros f Hf; [simpl; lia|].
  rewrite imap_cons. cbn [concat length]. rewrite length_app.
  specialize (IH (f ∘ S) (fun index => Hf (S index))).
  specialize (Hf 0 attribute). lia.
Qed.

(** X2. The answer of the validator is never the empty list, and it
    holds at most two errors for the message and three for each
    attribute. *)
Theorem validateMessage_bounded (message : SqsMessage) :
  exists answer,
    validateMessage message = Ok answer /\
    answer <> Some [] /\
    length (Spec.reported answer) <= 2 + 3 * length (attributes message).
Proof.
  exists (Spec.result (Spec.collected message)).
  split; [apply validateMessage_collected|]. split.
  - now destruct (Spec.collected message).
  - rewrite reported_result. unfold Spec.collected. rewrite length_app.
    pose proof (attributesErrors_length (attributes message)).
    assert (length (Spec.generalErrors message) <= 2); [|lia].
    unfold Spec.generalErrors. repeat case_decide; cbn; lia.
Qed.

(** X3. On an item whose body is a text or undefined and whose
    attributes are an array of attribute records or undefined, the
    validator throws exactly when the attributes are undefined; an
    undefined body is not an exception but the first error of the
    answer. *)
Theorem validateMessage_on_items item :
  (item_attributes item = None <-> exists e, validateMessage item = Throw e) /\
  (forall attributes,
     item_body item = None -> item_attributes item = Some attributes ->
     exists others,
       validateMessage item = Ok (Some ("Body is not defined." :: others))).
Proof.
  split.
  - split.
    + intros Hnone. eexists. now apply validateMessage_no_attributes.
    + intros [e Hthrow]. destruct (item_attributes item) as [attributes|] eqn:Hsome;
        [|reflexivity].
      unfold validateMessage in Hthrow. rewrite Hsome in Hthrow. discriminate Hthrow.
  - intros attributes Hbody Hsome. unfold validateMessage. rewrite Hbody, Hsome.
    cbn [falsy defined mbind Result_bind push app].
    rewrite forEach_validateAttribute, answer_result.
    destruct (negb (isPropertyUnique name attributes)); cbn [app]; eexists; reflexivity.
Qed.

End ValidateMessageMore.

(** ** More on [isNumeric] and [isJson] *)

Section NumericMore.

Import JSString MessageUtils.

Lemma trim_empty text : trim text = "" -> trimStart text = "".
Proof.
  unfold trim. intros Htrim.
  destruct (trimStart_cases text) as [Hempty | (c & rest & Hstart & Hc)]; [exact Hempty|].
  rewrite Hstart in Htrim. destruct (trimEnd_head c rest Hc) as [rest' Hend].
  rewrite Hend in Htrim. discriminate Htrim.
Qed.

(** X4. A text that is empty or made of white space only is not
    numeric, although [Number] reads it as 0: [parseFloat] finds no number
    in it. *)
Theorem isNumeric_blank text :
  trim text = "" -> isNumeric (VString text) = false.
Proof.
  intros Hblank. unfold isNumeric, parseFloat, JSNumber.parseFloat, ToString.
  rewrite (trim_empty text Hblank). cbn. apply andb_false_r.
Qed.

Lemma digit_not_space c : JSNumber.isDigit c = true -> isWhiteSpace c = false.
Proof. destruct c as [[] [] [] [] [] [] [] []]; vm_compute; congruence. Qed.

Lemma skip_last p text c :
  JSNumber.skip p text = "" -> last_char text = Some c -> p c = true.
Proof.
  induction text as [|a rest IH]; [discriminate|].
  cbn [JSNumber.skip]. destruct (p a) eqn:Ha; [|discriminate].
  intros Hskip Hlast. destruct rest as [|a' rest'].
  - injection Hlast as <-. exact Ha.
  - now apply IH.
Qed.

Lemma last_char_cons a c rest :
  last_char (String a (String c rest)) = last_char (String c rest).
Proof. reflexivity. Qed.

Lemma last_char_some c rest : exists final, last_char (String c rest) = Some final.
Proof.
  revert c. induction rest as [|c' rest' IH]; intros c; [now exists c|].
  rewrite last_char_cons. apply IH.
Qed.

(** A sign or a digit, then digits up to the end. *)
Lemma digits_trim first digits :
  isWhiteSpace first = false -> JSNumber.starts JSNumber.isDigit digits = true ->
  JSNumber.skip JSNumber.isDigit digits = "" ->
  trim (String first digits) = String first digits.
Proof.
  intros Hfirst Hstarts Hskip.
  destruct digits as [|c rest]; [discriminate Hstarts|].
  destruct (last_char_some c rest) as [final Hfinal].
  apply (trim_fixed _ first final); [reflexivity | exact Hfirst | | ].
  - rewrite at_last, last_char_cons. exact Hfinal.
  - apply digit_not_space. now apply (skip_last JSNumber.isDigit (String c rest)).
Qed.

Lemma unsigned_digits c rest :
  JSNumber.isDigit c = true -> JSNumber.skip JSNumber.isDigit rest = "" ->
  JSNumber.isStrUnsignedDecimalLiteral (String c rest) = true.
Proof.
  intros Hc Hskip. unfold JSNumber.isStrUnsignedDecimalLiteral.
  destruct (String.eqb (String c rest) "Infinity"); [reflexivity|].
  destruct c as [[] [] [] [] [] [] [] []]; try discriminate Hc;
    cbn [JSNumber.starts JSNumber.skip]; rewrite ?Hc; cbn; rewrite Hskip; reflexivity.
Qed.

Lemma numeric_digits (text : string) c rest :
  trim text = text -> JSNumber.dropSign text = String c rest ->
  JSNumber.isDigit c = true -> JSNumber.skip JSNumber.isDigit rest = "" ->
  isNumeric (VString text) = true.
Proof.
  intros Htrim Hsign Hc Hskip.
  assert (Hstart : trimStart text = text).
  { destruct text as [|a text']; [reflexivity|].
    destruct (isWhiteSpace a) eqn:Ha; [|now apply trimStart_head].
    exfalso. unfold trim in Htrim. cbn [trimStart] in Htrim. rewrite Ha in Htrim.
    assert (Hlen : String.length (trimEnd (trimStart text')) <= String.length text').
    { clear. generalize text'. intros t.
      assert (Hend : forall u, String.length (trimEnd u) <= String.length u).
      { induction u as [|b u IH]; [simpl; lia|]. cbn [trimEnd].
        destruct (trimEnd u); [destruct (isWhiteSpace b); simpl in *; lia|].
        simpl in *. lia. }
      assert (Hstart : forall u, String.length (trimStart u) <= String.length u).
      { induction u as [|b u IH]; [simpl; lia|]. cbn [trimStart].
        destruct (isWhiteSpace b); simpl in *; lia. }
      specialize (Hend (trimStart t)). specialize (Hstart t). lia. }
    rewrite Htrim in Hlen. simpl in Hlen. lia. }
  unfold isNumeric, isNaN, parseFloat, ToString, JSNumber.StringToNumber, JSNumber.parseFloat.
  rewrite Htrim, Hstart, Hsign.
  assert (Hnonempty : String.eqb text "" = false).
  { destruct text; [discriminate Hsign | reflexivity]. }
  rewrite Hnonempty. unfold JSNumber.isStrDecimalLiteral. rewrite Hsign.
  rewrite (unsigned_digits c rest Hc Hskip). cbn [orb JSNumber.isNaN negb andb].
  cbn [JSNumber.starts]. rewrite Hc. now destruct (String.prefix "Infinity" (String c rest)).
Qed.

(** X5. Every text made of one or more decimal digits, with or without a
    sign in front, is numeric. *)
Theorem isNumeric_integer digits :
  JSNumber.allOf JSNumber.isDigit digits = true ->
  isNumeric (VString digits) = true /\
  isNumeric (VString (String "-" digits)) = true /\
  isNumeric (VString (String "+" digits)) = true.
Proof.
  unfold JSNumber.allOf. intros [Hstarts Hskip%String.eqb_eq]%andb_true_iff.
  destruct digits as [|c rest]; [discriminate Hstarts|].
  cbn [JSNumber.starts] in Hstarts.
  assert (Hrest : JSNumber.skip JSNumber.isDigit rest = "").
  { cbn [JSNumber.skip] in Hskip. now rewrite Hstarts in Hskip. }
  assert (Hunsigned : JSNumber.dropSign (String c rest) = String c rest).
  { destruct c as [[] [] [] [] [] [] [] []]; try discriminate Hstarts; reflexivity. }
  split; [|split].
  - apply (numeric_digits _ c rest); [|exact Hunsigned|exact Hstarts|exact Hrest].
    destruct rest as [|c' rest'].
    + apply (trim_fixed _ c c); try reflexivity; now apply digit_not_space.
    + apply digits_trim; [now apply digit_not_space | | ].
      * cbn [JSNumber.starts]. cbn [JSNumber.skip] in Hrest. now destruct (JSNumber.isDigit c').
      * exact Hrest.
  - apply (numeric_digits _ c rest); [|reflexivity|exact Hstarts|exact Hrest].
    apply digits_trim; [reflexivity | exact Hstarts | exact Hskip].
  - apply (numeric_digits _ c rest); [|reflexivity|exact Hstarts|exact Hrest].
    apply digits_trim; [reflexivity | exact Hstarts | exact Hskip].
Qed.

(** X6. A text of fewer than two characters does not look like JSON: a
    lone brace is not sent to [JSON.parse]. *)
Theorem isJson_two_characters text :
  isJson text = true -> 2 <= String.length text.
Proof.
  intros [Hopen Hclose]%isJson_spec. rewrite at_last in Hclose.
  destruct text as [|c [|c' rest]]; [discriminate Hopen | | simpl; lia].
  rewrite at_0 in Hopen. cbn in Hclose. congruence.
Qed.

End NumericMore.

(** ** More on [formatBody] *)

Section FormatBodyMore.

Import JSString MessageUtils.
Context {J : JSON}.

(** X7. What [formatBody] returns has no white space around it, and it
    is the same for a body and for the body already trimmed. *)
Theorem formatBody_trimmed `{!JSONRoundTrip J} body :
  trim (formatBody body) = formatBody body /\
  formatBody (trim body) = formatBody body.
Proof.
  split.
  - destruct (isJson (trim body)) eqn:Hshape.
    + destruct (JSON_parse (trim body)) as [obj|e] eqn:Hparse.
      * rewrite (formatBody_parsed body obj Hshape Hparse).
        apply isJson_trim_fixed, isJson_spec.
        apply isJson_spec in Hshape as [Hfirst _].
        exact (stringify_object_braces _ _ 4 Hfirst Hparse).
      * rewrite (formatBody_parse_failure body e Hparse). apply trim_idempotent.
    + rewrite (formatBody_not_json body Hshape). apply trim_idempotent.
  - unfold formatBody. now rewrite trim_idempotent.
Qed.

(** X8. The formatted body is empty exactly when the body is empty or
    made of white space only. *)
Theorem formatBody_empty `{!JSONRoundTrip J} body :
  formatBody body = "" <-> trim body = "".
Proof.
  destruct (isJson (trim body)) eqn:Hshape.
  - apply isJson_spec in Hshape as Hbraces. destruct Hbraces as [Hfirst _].
    destruct (JSON_parse (trim body)) as [obj|e] eqn:Hparse.
    + rewrite (formatBody_parsed body obj Hshape Hparse).
      destruct (stringify_object_braces _ _ 4 Hfirst Hparse) as [Hopen _].
      split; intros Hempty; rewrite Hempty in *; discriminate.
    + now rewrite (formatBody_parse_failure body e Hparse).
  - now rewrite (formatBody_not_json body Hshape).
Qed.

End FormatBodyMore.

(** What [formatBody] makes of [sampleBody] is trimmed. *)
Lemma formatBody_trimmed_witness :
  JSONRoundTrip TinyJSON.engine /\
  JSString.trim (MessageUtils.formatBody (J := TinyJSON.engine) sampleBody)
  = sampleFormatted /\
  MessageUtils.formatBody (J := TinyJSON.engine) (JSString.trim sampleBody)
  = sampleFormatted.
Proof.
  split; [exact TinyJSONFacts.engine_round_trip|].
  destruct (@formatBody_trimmed TinyJSON.engine TinyJSONFacts.engine_round_trip sampleBody)
    as [Htrimmed Hsame].
  split; [exact Htrimmed | exact Hsame].
Defined.

(** The body of three spaces is empty once formatted. *)
Lemma formatBody_empty_witness :
  JSONRoundTrip TinyJSON.engine /\
  (MessageUtils.formatBody (J := TinyJSON.engine) "   " = "" <-> JSString.trim "   " = "").
Proof.
  split; [exact TinyJSONFacts.engine_round_trip|].
  apply (@formatBody_empty TinyJSON.engine TinyJSONFacts.engine_round_trip "   ").
Defined.

(** The empty text and a text of white space are not numeric. *)
Lemma isNumeric_blank_witness :
  JSString.trim "  " = "" /\ MessageUtils.isNumeric (VString "  ") = false.
Proof.
  split; [reflexivity|]. apply (isNumeric_blank "  "). reflexivity.
Defined.

(** The digits of 2024, bare and signed. *)
Lemma isNumeric_integer_witness :
  JSNumber.allOf JSNumber.isDigit "2024" = true /\
  MessageUtils.isNumeric (VString "2024") = true /\
  MessageUtils.isNumeric (VString "-2024") = true /\
  MessageUtils.isNumeric (VString "+2024") = true.
Proof.
  split; [reflexivity|]. apply (isNumeric_integer "2024"). reflexivity.
Defined.

(** The empty object is the shortest text that looks like JSON. *)
Lemma isJson_two_characters_witness :
  MessageUtils.isJson "{}" = true /\ 2 <= String.length "{}".
Proof.
  split; [reflexivity|]. apply (isJson_two_characters "{}"). reflexivity.
Defined.

(** ** More on [toRequest] *)

Section ToRequestMore.

Import MessageUtils.

Let extend (map : Result (gmap string MessageAttributeValue))
    (attribute : SqsMessageAttribute) : Result (gmap string MessageAttributeValue) :=
  map ← map;
  mapped ← mapAttribute attribute;
  mret (<[name attribute := mapped]> map).

Let put (map : gmap string MessageAttributeValue) (attribute : SqsMessageAttribute) :=
  <[name attribute := Spec.wire attribute]> map.

(** The text of the error of [mapAttribute]. *)
Let unmapped (attribute : SqsMessageAttribute) : Exception :=
  Error ("Could not map unknown attribute type: '" +:+ type attribute +:+ "'.").

Lemma mapAttribute_unknown_error attribute :
  ~ Spec.knownType attribute -> mapAttribute attribute = Throw (unmapped attribute).
Proof.
  unfold Spec.knownType. rewrite !elem_of_cons, elem_of_nil. intros Hunknown.
  unfold mapAttribute.
  destruct (String.eqb_spec (type attribute) "String"); [tauto|].
  destruct (String.eqb_spec (type attribute) "Number"); [tauto|].
  destruct (String.eqb_spec (type attribute) "Binary"); [tauto|].
  reflexivity.
Qed.

Lemma reduce_thrown attributes e : fold_left extend attributes (Throw e) = Throw e.
Proof. induction attributes as [|attribute rest IH]; [reflexivity | exact IH]. Qed.

Lemma reduce_first_unknown before attribute after map :
  Forall Spec.knownType before -> ~ Spec.knownType attribute ->
  fold_left extend (before ++ attribute :: after) (Ok map) = Throw (unmapped attribute).
Proof.
  intros Hknown Hunknown. rewrite fold_left_app.
  pose proof (reduce_known before map Hknown) as Hbefore.
  change (fold_left extend before (Ok map) = Ok (fold_left put before map)) in Hbefore.
  rewrite Hbefore. cbn [fold_left]. rewrite <- (reduce_thrown after (unmapped attribute)).
  f_equal. unfold extend. cbn [mbind Result_bind].
  now rewrite (mapAttribute_unknown_error attribute Hunknown).
Qed.

Lemma first_unknown attributes :
  ~ Forall Spec.knownType attributes ->
  exists before attribute after,
    attributes = before ++ attribute :: after /\
    Forall Spec.knownType before /\ ~ Spec.knownType attribute.
Proof.
  induction attributes as [|first rest IH]; intros Hnot.
  - exfalso. apply Hnot. constructor.
  - destruct (decide (Spec.knownType first)) as [Hknown | Hunknown].
    + destruct IH as (before & attribute & after & -> & Hbefore & Hunknown).
      { intros Hrest. apply Hnot. now constructor. }
      exists (first :: before), attribute, after.
      split; [reflexivity|]. split; [now constructor | exact Hunknown].
    + exists [], first, rest. split; [reflexivity|]. split; [constructor | exact Hunknown].
Qed.

Lemma toRequest_reduce queryUrl (message : SqsMessage) :
  toRequest queryUrl message
  = (MessageAttributes ← fold_left extend (attributes message) (Ok ∅);
     mret {| QueueUrl := queryUrl;
             MessageBody := body message;
             MessageAttributes := MessageAttributes |}).
Proof. reflexivity. Qed.

Lemma toRequest_known queryUrl (message : SqsMessage) :
  Forall Spec.knownType (attributes message) ->
  toRequest queryUrl message
  = Ok {| QueueUrl := queryUrl;
          MessageBody := body message;
          MessageAttributes := fold_left put (attributes message) ∅ |}.
Proof.
  intros Hknown. rewrite toRequest_reduce.
  pose proof (reduce_known (attributes message) ∅ Hknown) as Hreduce.
  change (fold_left extend (attributes message) (Ok ∅)
          = Ok (fold_left put (attributes message) ∅)) in Hreduce.
  now rewrite Hreduce.
Qed.

(** X9. [toRequest] returns a request exactly when every attribute has
    one of the three types; nothing else of the message is looked at, so
    a message the validator rejects for another reason is still turned
    into a request, with the queue URL and the body it was given. *)
Theorem toRequest_succeeds queryUrl (message : SqsMessage) :
  (Forall Spec.knownType (attributes message) <->
   exists request, toRequest queryUrl message = Ok request) /\
  (forall request, toRequest queryUrl message = Ok request ->
     QueueUrl request = queryUrl /\ MessageBody request = body message).
Proof.
  split.
  - split.
    + intros Hknown. eexists. now apply toRequest_known.
    + intros [request Hrequest].
      destruct (decide (Forall Spec.knownType (attributes message))) as [|Hnot]; [done|].
      exfalso. destruct (first_unknown _ Hnot) as (before & attribute & after & Heq & Hb & Hu).
      rewrite toRequest_reduce, Heq, (reduce_first_unknown _ _ _ _ Hb Hu) in Hrequest.
      discriminate Hrequest.
  - intros request Hrequest. rewrite toRequest_reduce in Hrequest.
    destruct (fold_left extend (attributes message) (Ok ∅)) as [map|e];
      [|discriminate Hrequest].
    cbn in Hrequest. injection Hrequest as <-. now split.
Qed.

(** X10. When an attribute has none of the three types, [toRequest]
    throws the error that names the type of the first such attribute. *)
Theorem toRequest_first_unknown queryUrl (message : SqsMessage) before attribute after :
  attributes message = before ++ attribute :: after ->
  Forall Spec.knownType before -> ~ Spec.knownType attribute ->
  toRequest queryUrl message
  = Throw (Error ("Could not map unknown attribute type: '" +:+ type attribute +:+ "'.")).
Proof.
  intros Heq Hknown Hunknown.
  rewrite toRequest_reduce, Heq, (reduce_first_unknown _ _ _ _ Hknown Hunknown).
  reflexivity.
Qed.

(** X11. When two attributes have the same name, the one that comes
    last in the list is the one the request carries under that name. *)
Theorem toRequest_last_wins queryUrl (message : SqsMessage) before attribute after :
  Forall Spec.knownType (attributes message) ->
  attributes message = before ++ attribute :: after ->
  name attribute ∉ name <$> after ->
  exists request,
    toRequest queryUrl message = Ok request /\
    MessageAttributes request !! name attribute = Some (Spec.wire attribute).
Proof.
  intros Hknown Heq Hlast. eexists. split; [now apply toRequest_known|].
  cbn [MessageAttributes]. rewrite Heq, fold_left_app. cbn [fold_left].
  pose proof (put_lookup_other after (put (fold_left put before ∅) attribute)
                (name attribute) Hlast) as Hlookup.
  change (fold_left put after (put (fold_left put before ∅) attribute) !! name attribute
          = put (fold_left put before ∅) attribute !! name attribute) in Hlookup.
  rewrite Hlookup. unfold put. apply lookup_insert_eq.
Qed.

Lemma put_size (array : list SqsMessageAttribute)
    (map : gmap string MessageAttributeValue) :
  size (fold_left put array map) <= size map + length array /\
  (size (fold_left put array map) = size map + length array <->
   NoDup (name <$> array) /\ forall key, key ∈ name <$> array -> map !! key = None).
Proof.
  revert map. induction array as [|first rest IH]; intros map.
  - cbn. split; [lia|]. split; [|lia]. intros _. split; [constructor|].
    intros key Hkey. now apply elem_of_nil in Hkey.
  - cbn [fold_left length]. rewrite fmap_cons, NoDup_cons.
    destruct (IH (put map first)) as [Hle Hiff].
    destruct (map !! name first) as [old|] eqn:Hold.
    + assert (Hput : size (put map first) = size map).
      { unfold put. rewrite <- (insert_delete_id map (name first) old Hold) at 2.
        rewrite <- insert_delete_eq.
        rewrite !map_size_insert_None by apply lookup_delete_eq. reflexivity. }
      rewrite Hput in Hle, Hiff. split; [lia|]. split; [lia|].
      intros [_ Hfresh]. specialize (Hfresh (name first)).
      rewrite Hold in Hfresh. discriminate Hfresh. left.
    + assert (Hput : size (put map first) = S (size map)).
      { unfold put. now apply map_size_insert_None. }
      rewrite Hput in Hle, Hiff. split; [lia|].
      replace (size map + S (length rest)) with (S (size map) + length rest) by lia.
      rewrite Hiff. unfold put. split.
      * intros [Hnodup Hfresh]. split; [split; [|exact Hnodup]|].
        -- intros Hin. specialize (Hfresh _ Hin).
           rewrite lookup_insert_eq in Hfresh. discriminate Hfresh.
        -- intros key [-> | Hin]%elem_of_cons; [exact Hold|].
           specialize (Hfresh _ Hin).
           destruct (decide (name first = key)) as [<- | Hne]; [exact Hold|].
           now rewrite lookup_insert_ne in Hfresh.
      * intros [[Hhead Hnodup] Hfresh]. split; [exact Hnodup|].
        intros key Hin. rewrite lookup_insert_ne.
        -- apply Hfresh. now right.
        -- intros <-. contradiction.
Qed.

(** X12. The request has one entry for each distinct name: as many
    entries as attributes when the names are pairwise distinct, fewer
    when a name is repeated. *)
Theorem toRequest_size queryUrl (message : SqsMessage) request :
  toRequest queryUrl message = Ok request ->
  size (MessageAttributes request) <= length (attributes message) /\
  (size (MessageAttributes request) = length (attributes message) <->
   NoDup (name <$> attributes message)).
Proof.
  intros Hrequest.
  assert (Hknown : Forall Spec.knownType (attributes message)).
  { destruct (decide (Forall Spec.knownType (attributes message))) as [|Hnot]; [done|].
    exfalso. destruct (first_unknown _ Hnot) as (before & attribute & after & Heq & Hb & Hu).
    rewrite toRequest_reduce, Heq, (reduce_first_unknown _ _ _ _ Hb Hu) in Hrequest.
    discriminate Hrequest. }
  rewrite (toRequest_known _ _ Hknown) in Hrequest. injection Hrequest as <-.
  cbn [MessageAttributes].
  destruct (put_size (attributes message) ∅) as [Hle Hiff].
  rewrite map_size_empty in Hle, Hiff. cbn in Hle, Hiff. split; [exact Hle|].
  rewrite Hiff. split; [now intros [? _]|].
  intros Hnodup. split; [exact Hnodup|]. intros key _. apply lookup_empty.
Qed.

End ToRequestMore.

(** [brokenAttributes]: two attributes of a known type, then one of type
    [Text]. *)
Lemma toRequest_first_unknown_witness :
  MessageUtils.toRequest "queue" brokenAttributes
  = Throw (Error "Could not map unknown attribute type: 'Text'.").
Proof.
  apply (toRequest_first_unknown "queue" brokenAttributes
           [ {| attribute_id := "2"; name := ""; type := "String"; value := VString "v" |};
             {| attribute_id := "3"; name := "a"; type := "Number"; value := VString "abc" |} ]
           {| attribute_id := "4"; name := "a"; type := "Text"; value := VString "" |}
           []).
  - reflexivity.
  - repeat constructor.
  - unfold Spec.knownType. cbn [type]. rewrite !elem_of_cons, elem_of_nil.
    intros [H | [H | [H | []]]]; discriminate H.
Defined.

(** [sameName]: the third attribute named [a] is the one of the request. *)
Lemma toRequest_last_wins_witness :
  exists request,
    MessageUtils.toRequest "queue" sameName = Ok request /\
    MessageAttributes request !! "a"
    = Some {| DataType := "Binary"; StringValue := None;
              BinaryValue := Some (VString "z") |}.
Proof.
  apply (toRequest_last_wins "queue" sameName
           [ {| attribute_id := "2"; name := "a"; type := "String"; value := VString "x" |};
             {| attribute_id := "3"; name := "a"; type := "String"; value := VString "y" |} ]
           {| attribute_id := "4"; name := "a"; type := "Binary"; value := VString "z" |}
           []).
  - repeat constructor.
  - reflexivity.
  - apply not_elem_of_nil.
Defined.

(** [sameName] has three attributes and its request a single entry. *)
Lemma toRequest_size_witness :
  exists request,
    MessageUtils.toRequest "queue" sameName = Ok request /\
    size (MessageAttributes request) <= 3 /\
    (size (MessageAttributes request) = 3 <-> NoDup (name <$> attributes sameName)).
Proof.
  destruct (MessageUtils.toRequest "queue" sameName) as [request|e] eqn:Hrequest;
    [|discriminate Hrequest].
  exists request. split; [reflexivity|].
  apply (toRequest_size "queue" sameName request Hrequest).
Defined.

(** ** More on [toMessage] *)

Section ToMessageMore.

Import MessageUtils.
Context {J : JSON}.

(** The callback of [message.attributes?.map]. *)
Let fresh (attribute : SqsMessageAttribute) : Gen SqsMessageAttribute :=
  id ← generateRandomId;
  mret {| attribute_id := id;
          name := name attribute;
          type := type attribute;
          value := value attribute |}.

(** The attribute at position [i] of the produced message. *)
Let renamed (rnd : Random) (i : nat) (attribute : SqsMessageAttribute) :=
  {| attribute_id := Shape.drawn rnd i;
     name := name attribute;
     type := type attribute;
     value := value attribute |}.

Lemma advance_next n rnd :
  Shape.advance (S n) rnd = Shape.advance n (fun i => rnd (S i)).
Proof. unfold Shape.advance. apply Nat.iter_succ_r. Qed.

Lemma advance_at n rnd i : Shape.advance n rnd i = rnd (n + i).
Proof.
  revert rnd i. induction n as [|n IH]; intros rnd i; [reflexivity|].
  rewrite advance_next, IH. reflexivity.
Qed.

Lemma mapGen_fresh array rnd :
  mapGen fresh array rnd
  = Ok (imap (renamed rnd) array, Shape.advance (length array) rnd).
Proof.
  revert rnd. induction array as [|attribute rest IH]; intros rnd; [reflexivity|].
  cbn [mapGen]. rewrite Gen_bind_run. unfold fresh at 1.
  rewrite Gen_bind_run. cbn [generateRandomId mret Gen_ret].
  rewrite Gen_bind_run, IH. cbn [mret Gen_ret length].
  rewrite advance_next. reflexivity.
Qed.

Lemma validateMessage_with_attributes item array :
  item_attributes item = Some array -> exists answer, validateMessage item = Ok answer.
Proof.
  intros Hsome. unfold validateMessage. rewrite Hsome. eexists. reflexivity.
Qed.

(** What [toMessage] returns on an item with a body and attributes. *)
Lemma toMessage_run item rnd text array answer :
  item_body item = Some text -> item_attributes item = Some array ->
  validateMessage item = Ok answer ->
  toMessage item rnd
  = Ok ({| message_id := Shape.drawn rnd 0;
           body := formatBody text;
           attributes := imap (renamed (fun i => rnd (S i))) array;
           errors := answer |},
        Shape.advance (S (length array)) rnd).
Proof.
  intros Hbody Hattributes Hanswer. unfold toMessage.
  rewrite Gen_bind_run. cbn [generateRandomId].
  rewrite Gen_bind_run, lift_run, Hbody. cbn [defined mbind Result_bind mret Result_ret].
  rewrite Gen_bind_run, Hattributes.
  change (mapGen _ array) with (mapGen fresh array). rewrite mapGen_fresh.
  rewrite Gen_bind_run, lift_run, Hanswer. cbn [mret Gen_ret].
  rewrite advance_next. reflexivity.
Qed.

Lemma toMessage_incomplete item rnd :
  ~ Shape.complete item -> exists e, toMessage item rnd = Throw e.
Proof.
  unfold Shape.complete. intros Hnot. unfold toMessage.
  rewrite Gen_bind_run. cbn [generateRandomId]. rewrite Gen_bind_run, lift_run.
  destruct (item_body item) as [text|];
    cbn [defined mbind Result_bind mret Result_ret]; [|eauto].
  destruct (item_attributes item) as [array|] eqn:Hattributes.
  - exfalso. apply Hnot. split; eauto.
  - rewrite Gen_bind_run. cbn [mret Gen_ret].
    rewrite Gen_bind_run, lift_run, (validateMessage_no_attributes item Hattributes).
    eauto.
Qed.

Lemma toMessage_complete item rnd :
  Shape.complete item -> exists message,
    toMessage item rnd
    = Ok (message, Shape.advance (S (length (default [] (item_attributes item)))) rnd).
Proof.
  intros [[text Hbody] [array Hattributes]].
  destruct (validateMessage_with_attributes item array Hattributes) as [answer Hanswer].
  rewrite (toMessage_run item rnd text array answer Hbody Hattributes Hanswer).
  rewrite Hattributes. eexists. reflexivity.
Qed.

(** X13. On an item whose body is a text or undefined and whose
    attributes are an array of attribute records or undefined,
    [toMessage] produces a message exactly when neither is undefined;
    otherwise it throws. *)
Theorem toMessage_succeeds item rnd :
  (Shape.complete item <-> exists message rnd', toMessage item rnd = Ok (message, rnd')) /\
  (~ Shape.complete item <-> exists e, toMessage item rnd = Throw e).
Proof.
  split; split.
  - intros Hcomplete. destruct (toMessage_complete item rnd Hcomplete) as [message Hrun].
    eauto.
  - intros (message & rnd' & Hrun).
    destruct (decide (is_Some (item_body item) /\ is_Some (item_attributes item)))
      as [Hcomplete | Hnot]; [exact Hcomplete|].
    destruct (toMessage_incomplete item rnd Hnot) as [e Hthrow]. congruence.
  - apply toMessage_incomplete.
  - intros [e Hthrow] Hcomplete.
    destruct (toMessage_complete item rnd Hcomplete) as [message Hrun]. congruence.
Qed.

Lemma renamed_content rnd array :
  Shape.content <$> imap (renamed rnd) array = Shape.content <$> array.
Proof.
  revert rnd. induction array as [|attribute rest IH]; intros rnd; [reflexivity|].
  rewrite imap_cons, !fmap_cons. f_equal. apply (IH (fun i => rnd (S i))).
Qed.

(** X14. The message [toMessage] produces has the formatted body of the
    item, and the attributes of the item in the same order with the same
    names, types and values; the errors it carries are the answer of the
    validator on the item. *)
Theorem toMessage_content item rnd message rnd' :
  toMessage item rnd = Ok (message, rnd') ->
  exists text array,
    item_body item = Some text /\ item_attributes item = Some array /\
    body message = formatBody text /\
    Shape.content <$> attributes message = Shape.content <$> array /\
    validateMessage item = Ok (errors message).
Proof.
  intros Hrun.
  destruct (decide (is_Some (item_body item) /\ is_Some (item_attributes item)))
    as [[[text Hbody] [array Hattributes]] | Hnot].
  - destruct (validateMessage_with_attributes item array Hattributes) as [answer Hanswer].
    rewrite (toMessage_run item rnd text array answer Hbody Hattributes Hanswer) in Hrun.
    injection Hrun as <- _. exists text, array.
    cbn [body attributes errors]. repeat split; try done. apply renamed_content.
  - destruct (toMessage_incomplete item rnd Hnot) as [e Hthrow]. congruence.
Qed.

(** X15. [toMessage] draws one identifier for the message and then one
    for each attribute, in the order of the list: the message has the
    first draw, the attribute at position [i] the draw after it by
    [i + 1], and the draws that follow are left for the next call. *)
Theorem toMessage_identifiers item rnd message rnd' :
  toMessage item rnd = Ok (message, rnd') ->
  message_id message = Shape.drawn rnd 0 /\
  (forall i attribute,
     attributes message !! i = Some attribute ->
     attribute_id attribute = Shape.drawn rnd (S i)) /\
  (forall i, rnd' i = rnd (S (length (attributes message)) + i)).
Proof.
  intros Hrun.
  destruct (decide (is_Some (item_body item) /\ is_Some (item_attributes item)))
    as [[[text Hbody] [array Hattributes]] | Hnot].
  - destruct (validateMessage_with_attributes item array Hattributes) as [answer Hanswer].
    rewrite (toMessage_run item rnd text array answer Hbody Hattributes Hanswer) in Hrun.
    injection Hrun as <- <-. cbn [message_id attributes].
    split; [reflexivity|]. split.
    + intros i attribute Hlookup. rewrite list_lookup_imap in Hlookup.
      destruct (array !! i) as [original|]; [|discriminate Hlookup].
      injection Hlookup as <-. reflexivity.
    + intros i. rewrite advance_at, length_imap. f_equal. lia.
  - destruct (toMessage_incomplete item rnd Hnot) as [e Hthrow]. congruence.
Qed.

End ToMessageMore.

Section SeedData.

Import MessageUtils.
Context {J : JSON}.

Lemma attributeErrors_content index a b :
  Shape.content a = Shape.content b ->
  Spec.attributeErrors index a = Spec.attributeErrors index b.
Proof.
  unfold Shape.content. intros [= Hname Htype Hvalue].
  unfold Spec.attributeErrors. now rewrite Hname, Htype, Hvalue.
Qed.

Lemma imap_content {B} (f : nat -> SqsMessageAttribute -> B) (l1 l2 : list SqsMessageAttribute) :
  (forall i a b, Shape.content a = Shape.content b -> f i a = f i b) ->
  Shape.content <$> l1 = Shape.content <$> l2 ->
  imap f l1 = imap f l2.
Proof.
  revert f l2. induction l1 as [|a l1 IH]; intros f [|b l2] Hf Heq;
    try discriminate Heq; [reflexivity|].
  rewrite !fmap_cons in Heq.
  assert (Hhead : Shape.content a = Shape.content b) by congruence.
  assert (Htail : Shape.content <$> l1 = Shape.content <$> l2) by congruence.
  rewrite !imap_cons. f_equal; [now apply Hf|].
  apply IH; [|exact Htail]. intros i a' b' Hab. now apply Hf.
Qed.

Lemma names_content (l1 l2 : list SqsMessageAttribute) :
  Shape.content <$> l1 = Shape.content <$> l2 -> name <$> l1 = name <$> l2.
Proof.
  revert l2. induction l1 as [|a l1 IH]; intros [|b l2] Heq;
    try discriminate Heq; [reflexivity|].
  rewrite !fmap_cons in Heq. rewrite !fmap_cons.
  assert (Hhead : Shape.content a = Shape.content b) by congruence.
  assert (Htail : Shape.content <$> l1 = Shape.content <$> l2) by congruence.
  rewrite (IH l2 Htail). unfold Shape.content in Hhead. congruence.
Qed.

(** The validator looks at the emptiness of the body and at the names,
    types and values of the attributes, and at nothing else. *)
Lemma collected_content (m1 m2 : SqsMessage) :
  (body m1 = "" <-> body m2 = "") ->
  Shape.content <$> attributes m1 = Shape.content <$> attributes m2 ->
  Spec.collected m1 = Spec.collected m2.
Proof.
  intros Hbody Hcontent.
  unfold Spec.collected, Spec.generalErrors, Spec.attributesErrors.
  rewrite (names_content _ _ Hcontent).
  rewrite (imap_content Spec.attributeErrors _ _ attributeErrors_content Hcontent).
  f_equal. f_equal.
  destruct (decide (body m1 = "")), (decide (body m2 = "")); tauto || reflexivity.
Qed.

Lemma truthy_nonempty text : JSString.truthy text = true <-> text <> "".
Proof. destruct text; simpl; split; congruence. Qed.

(** X16. When the body of the item and its formatted body are both
    empty or both not, the errors [toMessage] attaches to the message are
    the answer of the validator on that message: the identifiers it
    gives do not matter to the validator. *)
Theorem toMessage_errors_of_message item rnd message rnd' text :
  toMessage item rnd = Ok (message, rnd') ->
  item_body item = Some text ->
  JSString.truthy (formatBody text) = JSString.truthy text ->
  validateMessage message = Ok (errors message).
Proof.
  intros Hrun Hbody Htruthy.
  pose proof (toMessage_errors item rnd message rnd' Hrun) as Herrors.
  destruct (item_attributes item) as [array|] eqn:Hattributes.
  - destruct (validateMessage_with_attributes item array Hattributes) as [answer Hanswer].
    pose proof Hrun as Hshape.
    rewrite (toMessage_run item rnd text array answer Hbody Hattributes Hanswer) in Hshape.
    injection Hshape as Hmessage _.
    set (seen := {| message_id := ""; body := text; attributes := array; errors := None |}).
    assert (Hitem : item = item_of seen).
    { destruct item as [b a]. cbn in Hbody, Hattributes. subst. reflexivity. }
    rewrite Hitem, validateMessage_collected in Herrors. rewrite validateMessage_collected.
    rewrite <- Herrors. do 2 f_equal. apply collected_content.
    + rewrite <- Hmessage. cbn [body seen].
      pose proof (truthy_nonempty (formatBody text)) as Hformatted.
      pose proof (truthy_nonempty text) as Hraw. rewrite Htruthy in Hformatted.
      destruct (decide (text = "")), (decide (formatBody text = "")); tauto.
    + rewrite <- Hmessage. cbn [attributes seen].
      change (imap _ array) with
        (imap (fun i attribute =>
                 {| attribute_id := Shape.drawn (fun i => rnd (S i)) i;
                    name := name attribute; type := type attribute;
                    value := value attribute |}) array).
      clear. generalize (fun i : nat => rnd (S i)). intros r.
      revert r. induction array as [|attribute rest IH]; intros r; [reflexivity|].
      rewrite imap_cons, !fmap_cons. f_equal. apply (IH (fun i => r (S i))).
  - rewrite (validateMessage_no_attributes item Hattributes) in Herrors.
    discriminate Herrors.
Qed.

Lemma initialMessages_run items rnd :
  (Forall Shape.complete items /\
   exists messages rnd',
     mapGen toMessage items rnd = Ok (messages, rnd') /\
     length messages = length items) \/
  (~ Forall Shape.complete items /\ exists e, mapGen toMessage items rnd = Throw e).
Proof.
  revert rnd. induction items as [|item rest IH]; intros rnd.
  - left. split; [constructor|]. exists [], rnd. split; reflexivity.
  - cbn [mapGen]. rewrite Gen_bind_run.
    destruct (decide (is_Some (item_body item) /\ is_Some (item_attributes item)))
      as [Hcomplete | Hnot].
    + destruct (toMessage_complete item rnd Hcomplete) as [message Hrun].
      rewrite Hrun, Gen_bind_run.
      destruct (IH (Shape.advance (S (length (default [] (item_attributes item)))) rnd))
        as [(Hall & messages & rnd' & Hrest & Hlength) | (Hnone & e & Hrest)];
        rewrite Hrest.
      * left. split; [now constructor|]. exists (message :: messages), rnd'.
        split; [reflexivity|]. simpl. now rewrite Hlength.
      * right. split; [|eauto]. intros Hall. apply Hnone. now inversion Hall.
    + destruct (toMessage_incomplete item rnd Hnot) as [e Hthrow]. rewrite Hthrow.
      right. split; [|eauto]. intros Hall. apply Hnot. now inversion Hall.
Qed.

(** X17. On seed items whose body is a text or undefined and whose
    attributes are an array of attribute records or undefined, the seed
    data give the initial messages exactly when no item has an undefined
    body or undefined attributes, one message for each item; a single
    item with one of them undefined makes the whole conversion throw. *)
Theorem initialMessages_all_or_nothing items rnd :
  (Forall Shape.complete items <->
   exists messages rnd', AppComponent.initialMessages items rnd = Ok (messages, rnd')) /\
  (~ Forall Shape.complete items <->
   exists e, AppComponent.initialMessages items rnd = Throw e) /\
  (forall messages rnd',
     AppComponent.initialMessages items rnd = Ok (messages, rnd') ->
     length messages = length items).
Proof.
  unfold AppComponent.initialMessages.
  destruct (initialMessages_run items rnd)
    as [(Hall & messages & rnd' & Hrun & Hlength) | (Hnone & e & Hrun)]; rewrite Hrun.
  - split; [|split].
    + split; [eauto | done].
    + split; [contradiction | intros [e He]; discriminate He].
    + intros ms r [= <- _]. exact Hlength.
  - split; [|split].
    + split; [contradiction | intros (ms & r & Hok); discriminate Hok].
    + split; [eauto | done].
    + intros ms r Hok. discriminate Hok.
Qed.

End SeedData.

(** ** The list of messages ([messages.component.tsx]) *)

Section MessagesFacts.

Import MessagesComponent.

Lemma updateMessage_absent messages messageId newMessage :
  messageId ∉ message_id <$> messages ->
  updateMessage messages messageId newMessage = messages.
Proof.
  induction messages as [|message rest IH]; intros Habsent; [reflexivity|].
  rewrite fmap_cons, not_elem_of_cons in Habsent. destruct Habsent as [Hne Habsent].
  unfold updateMessage in *. cbn [map].
  destruct (String.eqb_spec (message_id message) messageId) as [Heq | _]; [congruence|].
  now rewrite IH.
Qed.

Lemma removeMessage_absent messages messageId :
  messageId ∉ message_id <$> messages -> removeMessage messages messageId = messages.
Proof.
  induction messages as [|message rest IH]; intros Habsent; [reflexivity|].
  rewrite fmap_cons, not_elem_of_cons in Habsent. destruct Habsent as [Hne Habsent].
  unfold removeMessage in *. cbn [List.filter].
  destruct (String.eqb_spec (message_id message) messageId) as [Heq | _]; [congruence|].
  cbn [negb]. now rewrite IH.
Qed.

Lemma updateMessage_index messages messageId newMessage i old :
  NoDup (message_id <$> messages) ->
  messages !! i = Some old -> message_id old = messageId ->
  updateMessage messages messageId newMessage = <[i := newMessage]> messages.
Proof.
  intros Hnodup. revert i.
  induction messages as [|message rest IH]; intros i Hlookup Hid.
  - now rewrite lookup_nil in Hlookup.
  - rewrite fmap_cons, NoDup_cons in Hnodup. destruct Hnodup as [Hfresh Hnodup].
    unfold updateMessage. cbn [map]. fold (updateMessage rest messageId newMessage).
    destruct i as [|i]; cbn in Hlookup.
    + injection Hlookup as ->. rewrite <- Hid, String.eqb_refl.
      rewrite updateMessage_absent by exact Hfresh. reflexivity.
    + assert (Hrest : message_id old ∈ message_id <$> rest).
      { apply list_elem_of_fmap. exists old. split; [reflexivity|].
        now apply list_elem_of_lookup_2 in Hlookup. }
      destruct (String.eqb_spec (message_id message) messageId) as [Heq | Hne].
      * exfalso. apply Hfresh. now rewrite Heq, <- Hid.
      * cbn. f_equal. now apply (IH Hnodup i).
Qed.

(** X18. When the identifiers of the messages are pairwise distinct,
    [updateMessage] replaces the message that has the identifier, at its
    position, and leaves every other message as it is; an identifier that
    no message has changes nothing. *)
Theorem updateMessage_at messages messageId newMessage :
  NoDup (message_id <$> messages) ->
  (forall i old,
     messages !! i = Some old -> message_id old = messageId ->
     updateMessage messages messageId newMessage = <[i := newMessage]> messages) /\
  (messageId ∉ message_id <$> messages ->
   updateMessage messages messageId newMessage = messages).
Proof.
  intros Hnodup. split; [|apply updateMessage_absent].
  intros i old. now apply updateMessage_index.
Qed.

(** X19. When the identifiers of the messages are pairwise distinct,
    [removeMessage] takes out the message that has the identifier and
    keeps the others in their order; an identifier that no message has
    removes nothing. *)
Theorem removeMessage_at messages messageId :
  NoDup (message_id <$> messages) ->
  (forall i old,
     messages !! i = Some old -> message_id old = messageId ->
     removeMessage messages messageId = delete i messages) /\
  (messageId ∉ message_id <$> messages -> removeMessage messages messageId = messages).
Proof.
  intros Hnodup. split; [|apply removeMessage_absent].
  induction messages as [|message rest IH]; intros i old Hlookup Hid.
  - now rewrite lookup_nil in Hlookup.
  - rewrite fmap_cons, NoDup_cons in Hnodup. destruct Hnodup as [Hfresh Hnodup].
    unfold removeMessage. cbn [List.filter]. fold (removeMessage rest messageId).
    destruct i as [|i]; cbn in Hlookup.
    + injection Hlookup as ->. rewrite <- Hid, String.eqb_refl. cbn [negb].
      rewrite removeMessage_absent by exact Hfresh. reflexivity.
    + assert (Hrest : message_id old ∈ message_id <$> rest).
      { apply list_elem_of_fmap. exists old. split; [reflexivity|].
        now apply list_elem_of_lookup_2 in Hlookup. }
      destruct (String.eqb_spec (message_id message) messageId) as [Heq | Hne].
      * exfalso. apply Hfresh. now rewrite Heq, <- Hid.
      * cbn. f_equal. now apply (IH Hnodup i old).
Qed.


End MessagesFacts.

(** ** One message ([message.component.tsx]) *)

Section MessageFacts.

Import MessageComponent.

Lemma substring_whole text : String.substring 0 (String.length text) text = text.
Proof. induction text as [|c rest IH]; [reflexivity|]. simpl. now rewrite IH. Qed.

Lemma substring_split n text :
  n <= String.length text ->
  String.substring 0 n text +:+ String.substring n (String.length text - n) text = text /\
  String.length (String.substring 0 n text) = n.
Proof.
  revert text. induction n as [|n IH]; intros text Hn.
  - rewrite Nat.sub_0_r, substring_whole. now destruct text.
  - destruct text as [|c rest]; [simpl in Hn; lia|].
    simpl in Hn. destruct (IH rest ltac:(lia)) as [Hsplit Hlength].
    change (String c (String.substring 0 n rest +:+
                      String.substring n (String.length rest - n) rest) = String c rest /\
            S (String.length (String.substring 0 n rest)) = S n).
    rewrite Hsplit, Hlength. now split.
Qed.

Lemma js_substring_split text position :
  js_substring text 0 position +:+ js_substring_from text position = text /\
  String.length (js_substring text 0 position) = Nat.min position (String.length text).
Proof.
  unfold js_substring_from, js_substring.
  rewrite Nat.min_0_l, Nat.min_id, Nat.min_0_l, Nat.max_0_l, Nat.sub_0_r.
  set (k := Nat.min position (String.length text)).
  assert (Hk : k <= String.length text) by (subst k; lia).
  rewrite (Nat.min_l k) by exact Hk. rewrite (Nat.max_r k) by exact Hk.
  exact (substring_split k text Hk).
Qed.

(** X21. The Tab key puts four spaces into the body at the position of
    the cursor, or at the end when the position is beyond it, and loses
    nothing of the text; the cursor goes four characters further; the
    change carries no errors. Another key changes nothing. *)
Theorem onBodyKeyDown_tab props elementValue elementSelectionStart :
  (exists before after,
     elementValue = before +:+ after /\
     String.length before
     = Nat.min (default 0 elementSelectionStart) (String.length elementValue) /\
     onBodyKeyDown props "Tab" elementValue elementSelectionStart
     = Some ((message_id props,
              {| message_id := message_id props;
                 body := before +:+ "    " +:+ after;
                 attributes := attributes props;
                 errors := None |}),
             default 0 elementSelectionStart + 4)) /\
  (forall key, key <> "Tab" ->
     onBodyKeyDown props key elementValue elementSelectionStart = None).
Proof.
  split.
  - destruct (js_substring_split elementValue (default 0 elementSelectionStart))
      as [Hsplit Hlength].
    exists (js_substring elementValue 0 (default 0 elementSelectionStart)),
           (js_substring_from elementValue (default 0 elementSelectionStart)).
    split; [now rewrite Hsplit|]. split; [exact Hlength|]. reflexivity.
  - intros key Hkey. unfold onBodyKeyDown.
    destruct (String.eqb_spec key "Tab"); [contradiction | reflexivity].
Qed.

Lemma attributesErrors_snoc array attribute :
  Spec.attributesErrors (array ++ [attribute])
  = Spec.attributesErrors array ++ Spec.attributeErrors (length array) attribute.
Proof.
  unfold Spec.attributesErrors. rewrite imap_app, concat_app. cbn [imap concat].
  now rewrite Nat.add_0_r, app_nil_r.
Qed.

(** X22. The attribute [addAttribute] appends has no name and no value:
    the message it gives is one the validator rejects, with the two
    errors of the position of the new attribute, the last of the list. *)
Theorem addAttribute_invalid props rnd :
  exists id message rnd' errors,
    addAttribute props rnd = Ok ((message_id props, message), rnd') /\
    attributes message
    = attributes props ++
      [ {| attribute_id := id; name := ""; type := "String"; value := VString "" |} ] /\
    MessageUtils.validateMessage message = Ok (Some errors) /\
    ("Attribute Name at position " +:+ JSString.ofIndex (length (attributes props)) +:+
     " is undefined.") ∈ errors /\
    ("Attribute Value at position " +:+ JSString.ofIndex (length (attributes props)) +:+
     " is undefined.") ∈ errors.
Proof.
  set (added := {| attribute_id := Shape.drawn rnd 0; name := ""; type := "String";
                   value := VString "" |}).
  set (message := {| message_id := message_id props; body := body props;
                     attributes := attributes props ++ [added]; errors := None |}).
  assert (Hcollected :
    Spec.collected message
    = Spec.generalErrors message ++ Spec.attributesErrors (attributes props) ++
      [ "Attribute Name at position " +:+ JSString.ofIndex (length (attributes props)) +:+
        " is undefined.";
        "Attribute Value at position " +:+ JSString.ofIndex (length (attributes props)) +:+
        " is undefined." ]).
  { unfold Spec.collected. cbn [attributes message].
    now rewrite attributesErrors_snoc. }
  assert (Hname :
    ("Attribute Name at position " +:+ JSString.ofIndex (length (attributes props)) +:+
     " is undefined.") ∈ Spec.collected message).
  { rewrite Hcollected, !elem_of_app. right. right. apply list_elem_of_here. }
  assert (Hvalue :
    ("Attribute Value at position " +:+ JSString.ofIndex (length (attributes props)) +:+
     " is undefined.") ∈ Spec.collected message).
  { rewrite Hcollected, !elem_of_app. right. right.
    apply list_elem_of_further, list_elem_of_here. }
  exists (Shape.drawn rnd 0), message, (fun i => rnd (S i)), (Spec.collected message).
  split; [reflexivity|]. split; [reflexivity|]. split; [|split; assumption].
  rewrite validateMessage_collected.
  destruct (Spec.collected message); [now apply elem_of_nil in Hname | reflexivity].
Qed.

Lemma lookup_map {A B} (f : A -> B) (l : list A) i :
  map f l !! i = f <$> l !! i.
Proof.
  revert i. induction l as [|x l IH]; intros [|i]; try reflexivity. apply IH.
Qed.

(** X23. Identifiers are drawn at random and two attributes may have
    the same one: [updateAttribute] then replaces both by the new
    attribute, and the message it gives has a repeated name, which the
    validator rejects. *)
Theorem updateAttribute_collision props attributeId newAttribute i j a b :
  i <> j ->
  attributes props !! i = Some a -> attributes props !! j = Some b ->
  attribute_id a = attributeId -> attribute_id b = attributeId ->
  let message := (updateAttribute props attributeId newAttribute).2 in
  attributes message !! i = Some newAttribute /\
  attributes message !! j = Some newAttribute /\
  ~ Shape.messageOk message.
Proof.
  intros Hne Hi Hj Ha Hb message.
  assert (Hat : forall k c,
    attributes props !! k = Some c -> attribute_id c = attributeId ->
    attributes message !! k = Some newAttribute).
  { intros k c Hk Hc. subst message. unfold updateAttribute, updateMessage.
    cbn [snd attributes partial_attributes default from_option]. unfold id.
    rewrite lookup_map, Hk. cbn.
    now rewrite Hc, String.eqb_refl. }
  pose proof (Hat i a Hi Ha) as Hi'. pose proof (Hat j b Hj Hb) as Hj'.
  split; [exact Hi'|]. split; [exact Hj'|].
  intros (_ & Hdistinct & _). now apply (Hdistinct i j newAttribute newAttribute).
Qed.

End MessageFacts.

(** ** The settings and the application *)

Section SettingsFacts.

Import SettingsComponent.

Lemma valid_fields config :
  valid config = true <-> forall key, get config key <> "".
Proof.
  unfold valid, every, Object_keys. cbn [forallb].
  rewrite !andb_true_iff, !truthy_nonempty. split.
  - intros (? & ? & ? & ? & ? & _) []; assumption.
  - intros Hall. repeat split; apply Hall.
Qed.

Lemma get_onFieldChange config targetName targetValue key :
  get (onFieldChange config targetName targetValue) key
  = if decide (key = targetName) then targetValue else get config key.
Proof.
  destruct targetName, key; cbn; case_decide; congruence.
Qed.

(** X24. After a change of one field the configuration is valid, and
    the connection can be tested, exactly when the value typed is not
    empty and none of the four other fields is empty. *)
Theorem onFieldChange_valid config targetName targetValue :
  valid (onFieldChange config targetName targetValue) = true <->
  targetValue <> "" /\ forall key, key <> targetName -> get config key <> "".
Proof.
  rewrite valid_fields. split.
  - intros Hall. split.
    + specialize (Hall targetName). rewrite get_onFieldChange in Hall.
      now rewrite decide_True in Hall.
    + intros key Hkey. specialize (Hall key). rewrite get_onFieldChange in Hall.
      now rewrite decide_False in Hall.
  - intros [Hvalue Hothers] key. rewrite get_onFieldChange.
    case_decide; [exact Hvalue | now apply Hothers].
Qed.

End SettingsFacts.

Section AppFacts.

Import AppComponent.

(** X25. For a message the validator accepts, the promise of
    [sendMessage] is settled by the queue alone: it resolves to true when
    the queue reports no error and is rejected with the message of the
    error otherwise; it is never rejected by an exception of [toRequest]
    and never resolves to false. *)
Theorem sendMessage_validated queueUrl sqs (message : SqsMessage) :
  MessageUtils.validateMessage message = Ok None ->
  exists request,
    MessageUtils.toRequest queueUrl message = Ok request /\
    sendMessage queueUrl sqs message
    = Ok (match sqs request with
          | Some errorMessage => Rejected errorMessage
          | None => Resolved true
          end).
Proof.
  intros Hvalid. eexists. split; [now apply toRequest_validated|].
  unfold sendMessage. rewrite (toRequest_validated queueUrl message Hvalid).
  cbn [mbind Result_bind]. now destruct (sqs _).
Qed.

(** X26. [testConnection] resolves to [ok] when the queue takes the
    request of the test message, and is rejected with the message of the
    error otherwise: it never resolves to [failed] and never throws. *)
Theorem testConnection_outcome queueUrl sqs rnd :
  exists rnd',
    testConnection queueUrl sqs rnd
    = Ok (match sqs {| QueueUrl := queueUrl;
                       MessageBody := "connection test";
                       MessageAttributes := ∅ |} with
          | Some errorMessage => Rejected errorMessage
          | None => Resolved ok
          end, rnd').
Proof.
  eexists. unfold testConnection. rewrite Gen_bind_run.
  cbn [MessageUtils.generateRandomId]. rewrite Gen_bind_run, lift_run.
  unfold sendMessage, MessageUtils.toRequest, reduce.
  cbn [attributes fold_left mbind Result_bind mret Result_ret body].
  destruct (sqs _); reflexivity.
Qed.

End AppFacts.

(** ** The properties at sample inputs *)

(** [toMessage] on [seedItem]: the formatted body, the two attributes. *)
Lemma toMessage_content_witness :
  MessageUtils.toMessage (J := TinyJSON.engine) seedItem sevens = Ok (seedMessage, sevens) /\
  exists text array,
    item_body seedItem = Some text /\ item_attributes seedItem = Some array /\
    body seedMessage = MessageUtils.formatBody (J := TinyJSON.engine) text /\
    Shape.content <$> attributes seedMessage = Shape.content <$> array /\
    MessageUtils.validateMessage seedItem = Ok (errors seedMessage).
Proof.
  split; [reflexivity|].
  apply (@toMessage_content TinyJSON.engine seedItem sevens seedMessage sevens).
  reflexivity.
Defined.

(** [toMessage] on [seedItem]: three draws, all of them 7. *)
Lemma toMessage_identifiers_witness :
  MessageUtils.toMessage (J := TinyJSON.engine) seedItem sevens = Ok (seedMessage, sevens) /\
  message_id seedMessage = Shape.drawn sevens 0 /\
  (forall i attribute,
     attributes seedMessage !! i = Some attribute ->
     attribute_id attribute = Shape.drawn sevens (S i)) /\
  (forall i, sevens i = sevens (S (length (attributes seedMessage)) + i)).
Proof.
  split; [reflexivity|].
  apply (@toMessage_identifiers TinyJSON.engine seedItem sevens seedMessage sevens).
  reflexivity.
Defined.

(** The errors of [seedMessage] are those of the validator on it. *)
Lemma toMessage_errors_of_message_witness :
  MessageUtils.toMessage (J := TinyJSON.engine) seedItem sevens = Ok (seedMessage, sevens) /\
  item_body seedItem = Some sampleBody /\
  JSString.truthy (MessageUtils.formatBody (J := TinyJSON.engine) sampleBody)
  = JSString.truthy sampleBody /\
  MessageUtils.validateMessage seedMessage = Ok (errors seedMessage).
Proof.
  split; [reflexivity|]. split; [reflexivity|]. split; [reflexivity|].
  apply (@toMessage_errors_of_message TinyJSON.engine seedItem sevens seedMessage sevens
           sampleBody); reflexivity.
Defined.

(** Replacing the message 2 of [threeMessages]. *)
Lemma updateMessage_at_witness :
  NoDup (message_id <$> threeMessages) /\
  MessagesComponent.updateMessage threeMessages "2" emptyMessage
  = <[1 := emptyMessage]> threeMessages /\
  MessagesComponent.updateMessage threeMessages "9" emptyMessage = threeMessages.
Proof.
  assert (Hnodup : NoDup (message_id <$> threeMessages)).
  { apply (bool_decide_unpack _). vm_compute. exact I. }
  split; [exact Hnodup|].
  destruct (updateMessage_at threeMessages "2" emptyMessage Hnodup) as [Hat _].
  destruct (updateMessage_at threeMessages "9" emptyMessage Hnodup) as [_ Habsent].
  split.
  - apply (Hat 1 {| message_id := "2"; body := "two"; attributes := [];
                    errors := Some ["late"] |}); reflexivity.
  - apply Habsent. apply (bool_decide_unpack _). vm_compute. exact I.
Defined.

(** Removing the message 2 of [threeMessages]. *)
Lemma removeMessage_at_witness :
  NoDup (message_id <$> threeMessages) /\
  MessagesComponent.removeMessage threeMessages "2" = delete 1 threeMessages.
Proof.
  assert (Hnodup : NoDup (message_id <$> threeMessages)).
  { apply (bool_decide_unpack _). vm_compute. exact I. }
  split; [exact Hnodup|].
  destruct (removeMessage_at threeMessages "2" Hnodup) as [Hat _].
  apply (Hat 1 {| message_id := "2"; body := "two"; attributes := [];
                  errors := Some ["late"] |}); reflexivity.
Defined.

(** The two attributes of [seedMessage] have the identifier 7: typing
    over one replaces both. *)
Lemma updateAttribute_collision_witness :
  let message := (MessageComponent.updateAttribute seedMessage "7" typedAttribute).2 in
  attributes message !! 0 = Some typedAttribute /\
  attributes message !! 1 = Some typedAttribute /\
  ~ Shape.messageOk message.
Proof.
  apply (updateAttribute_collision seedMessage "7" typedAttribute 0 1
           {| attribute_id := "7"; name := "a"; type := "String"; value := VString "x" |}
           {| attribute_id := "7"; name := "b"; type := "Number"; value := VString "5" |});
    [lia | reflexivity..].
Defined.

(** [twoAttributes] is sent to a queue that takes everything. *)
Lemma sendMessage_validated_witness :
  MessageUtils.validateMessage twoAttributes = Ok None /\
  exists request,
    MessageUtils.toRequest "queue" twoAttributes = Ok request /\
    AppComponent.sendMessage "queue" (fun _ => None) twoAttributes = Ok (Resolved true).
Proof.
  split; [reflexivity|].
  apply (sendMessage_validated "queue" (fun _ => None) twoAttributes). reflexivity.
Defined.

(** ** From one message to the list *)

Section Editing.


(** X28. [addMessage] keeps the messages and appends a draft with a new
    identifier, no body and no attribute; the validator rejects the draft
    for its body, and for nothing else. *)
Theorem addMessage_draft messages rnd :
  exists id rnd',
    MessagesComponent.addMessage messages rnd
    = Ok (messages ++ [ {| message_id := id; body := ""; attributes := []; errors := None |} ],
          rnd') /\
    MessageUtils.validateMessage
      {| message_id := id; body := ""; attributes := []; errors := None |}
    = Ok (Some ["Body is not defined."]).
Proof. do 2 eexists. split; reflexivity. Qed.

(** A message that carries errors is not sent: [sendMessage] calls
    [onSend] exactly when the message has no errors and [sending], as the
    callback closed over it, is false, and what it hands over is the
    message without its errors. *)
Theorem sendMessage_guard props sending :
  (MessageComponent.sendMessage props sending = None <->
   is_Some (errors props) \/ sending = true) /\
  (forall id sent,
     MessageComponent.sendMessage props sending = Some (id, sent) ->
     id = message_id props /\
     sent = {| message_id := message_id props; body := body props;
               attributes := attributes props; errors := None |}).
Proof.
  unfold MessageComponent.sendMessage. split.
  - case_bool_decide as Herrors; destruct sending; cbn [negb andb]; split;
      try done; try (intros _; tauto); try (intros [? | ?]; done).
  - intros id sent. destruct (negb _ && negb _); [|discriminate].
    intros [= <- <-]. now split.
Qed.

End Editing.

